(** * scholar.js: fetching and rendering a publication list

    A shallow embedding of [src/scholar.js] (the fetch / filter / sort /
    group / render pipeline and its error fallback), followed by the
    properties of the pipeline.

    Conventions of the embedding.
    - A JavaScript property read is a [field]: the property may be absent
      ([undefined]), [null], or hold a value.  Truthiness, [x || d] and
      [>=] are written out as JavaScript evaluates them.
    - Numbers are integers ([Z]), taken in the range where [String]
      writes a number in plain decimal digits; strings are [string],
      every character standing for one code unit below 256 (so U+00A0 is
      character 160).
    - The scalar fields of a record (title, year, venue, citation count,
      url, the name of an author) and the cursor are numbers, strings,
      null or absent, as the data model has them.
    - The network is the list of outcomes the successive requests will
      meet; a request issued when that list is exhausted never completes,
      and the run has no result ([None]).
    - The document is reduced to the element with id [publications-list],
      which may be missing from the page.
    - The navigation works on the elements [initNavigation] looks up when
      the page has loaded: the three elements found by id, the sections
      and the anchors of the navigation.  The elements found by id are
      taken not to be among those anchors.  The scroll offset is a
      rational number, the offset of a section an integer. *)

From Stdlib Require Import ZArith List String Ascii Bool Lia.
From Stdlib Require Import Permutation Sorted DecimalString DecimalPos DecimalZ.
From Stdlib Require Import QArith.
Import ListNotations.

#[local] Set Warnings "-register-all".

Local Open Scope string_scope.
Local Open Scope Z_scope.

(** ** JavaScript values *)

Inductive field (A : Type) : Type :=
| Absent
| Null
| Val (a : A).

Arguments Absent {A}.
Arguments Null {A}.
Arguments Val {A} a.

(** [ToBoolean] on a number. *)
Definition truthyZ (f : field Z) : bool :=
  match f with
  | Val n => negb (n =? 0)
  | _ => false
  end.

(** [f || d] with a number or a string on the left. *)
Definition num_or (f : field Z) (d : Z) : Z :=
  match f with
  | Val n => if n =? 0 then d else n
  | _ => d
  end.

Definition str_or (f : field string) (d : string) : string :=
  match f with
  | Val "" => d
  | Val s => s
  | _ => d
  end.

(** [f || []]: an array is truthy even when empty. *)
Definition list_or_empty {A : Type} (f : field (list A)) : list A :=
  match f with
  | Val l => l
  | _ => []
  end.

(** [f >= c]: [null] converts to 0, [undefined] to NaN. *)
Definition js_ge (f : field Z) (c : Z) : bool :=
  match f with
  | Val n => c <=? n
  | Null => c <=? 0
  | Absent => false
  end.

(** ** [Array.prototype.sort]

    The sort is stable; for a comparator that orders the elements
    consistently the result is the one an insertion from the right
    produces, each element going in front of the first one it does not
    compare greater than. *)

Section ArraySort.
Context {A : Type}.
Variable comparefn : A -> A -> Z.

Fixpoint sort_insert (x : A) (l : list A) : list A :=
  match l with
  | [] => [x]
  | y :: l' => if comparefn x y <=? 0 then x :: l else y :: sort_insert x l'
  end.

Definition array_sort (l : list A) : list A := fold_right sort_insert [] l.
End ArraySort.

(** ** Strings *)

Definition dq : string := String "034"%char "".
Definition nl : string := String "010"%char "".
Definition quoted (s : string) : string := dq ++ s ++ dq.

Definition to_lower (c : ascii) : ascii :=
  let n := nat_of_ascii c in
  if ((65 <=? n) && (n <=? 90))%nat then ascii_of_nat (n + 32) else c.

(** [p] is a prefix of [s] up to the case of ASCII letters. *)
Fixpoint prefix_ci (p s : string) : bool :=
  match p, s with
  | "", _ => true
  | String _ _, "" => false
  | String a p', String b s' => Ascii.eqb (to_lower a) (to_lower b) && prefix_ci p' s'
  end.

(** [/p/i.test(s)] for a pattern [p] of plain ASCII letters. *)
Fixpoint regex_test_ci (p s : string) : bool :=
  prefix_ci p s ||
  match s with
  | "" => false
  | String _ s' => regex_test_ci p s'
  end.

(** [escapeHtml]: the string becomes the text of a fresh element and is
    read back through [innerHTML], which serialises a text node by
    replacing [&], U+00A0, [<] and [>]. *)
Definition escape_char (c : ascii) : string :=
  if Ascii.eqb c "&" then "&amp;"
  else if Ascii.eqb c "160" then "&nbsp;"
  else if Ascii.eqb c "<" then "&lt;"
  else if Ascii.eqb c ">" then "&gt;"
  else String c "".

Fixpoint escapeHtml (str : string) : string :=
  match str with
  | "" => ""
  | String c s => escape_char c ++ escapeHtml s
  end.

(** ** Data model *)

Record author : Type := { name : field string }.

Record paper : Type := {
  title : field string;
  year : field Z;
  venue : field string;
  citationCount : field Z;
  url : field string;
  authors : field (list author)
}.

(** A continuation cursor is a number or a string. *)
Inductive cursor : Type :=
| CNum (n : Z)
| CStr (s : string).

Definition truthyC (f : field cursor) : bool :=
  match f with
  | Val (CNum n) => negb (n =? 0)
  | Val (CStr "") => false
  | Val (CStr _) => true
  | _ => false
  end.

(** The parsed body of a response. *)
Record page : Type := {
  data : field (list paper);
  next : field cursor
}.

(** A response whose body, if it is read at all, has the expected
    structure.  [json] is [None] when [res.json()] rejects or gives
    [null]; a body without the fields [data] and [next] (an empty object,
    an array, a number) is the page with both absent.  Bodies of any
    other shape are the subject of the section on bodies of any shape. *)
Record response : Type := {
  status : Z;
  json : option page
}.

Definition ok (res : response) : bool :=
  (200 <=? status res) && (status res <=? 299).

Inductive outcome : Type :=
| NetworkFailure
| Response (res : response).

Definition network : Type := list outcome.

(** ** The display tree *)

Inductive node : Type :=
| ElemText (tag className text : string)
| ElemHtml (tag className markup : string)
| ElemKids (tag className : string) (kids : list node).

Inductive content : Type :=
| Markup (html : string)
| Nodes (kids : list node).

Record document : Type := { publications_list : option content }.

Inductive load_state : Type :=
| Rendered
| ErrorRendered.

(** ** Constants *)

Definition GOOGLE_SCHOLAR_URL : string :=
  "https://scholar.google.com/citations?user=-qhGYywAAAAJ&hl=en".

Definition RECENT_YEAR_COUNT : Z := 4.

(** ** Rendering one publication *)

Definition indent (n : nat) : string := concat "" (repeat " " n).

Definition format_author (a : author) : string :=
  let name := escapeHtml (str_or (name a) "") in
  if regex_test_ci "razaviyayn" name
  then "<strong>" ++ name ++ "</strong>"
  else name.

Definition format_authors (p : paper) : string :=
  concat ", " (map format_author (list_or_empty (authors p))).

Definition nonempty (s : string) : bool :=
  match s with
  | "" => false
  | _ => true
  end.

Definition paper_markup (url title authors venue : string) : string :=
  nl ++ indent 8 ++ "<div class=" ++ quoted "pub-main" ++ ">" ++
  nl ++ indent 12 ++ "<a href=" ++ quoted url ++ " class=" ++ quoted "pub-title"
     ++ " target=" ++ quoted "_blank" ++ " rel=" ++ quoted "noopener" ++ ">"
     ++ title ++ "</a>" ++
  nl ++ indent 12 ++
     (if nonempty authors
      then "<p class=" ++ quoted "pub-authors" ++ ">" ++ authors ++ "</p>"
      else "") ++
  nl ++ indent 12 ++
     (if nonempty venue
      then "<p class=" ++ quoted "pub-venue" ++ ">" ++ venue ++ "</p>"
      else "") ++
  nl ++ indent 8 ++ "</div>" ++
  nl ++ indent 4.

Definition paper_href (p : paper) : string := str_or (url p) "#".

Definition createPaperElement (p : paper) : node :=
  let title := escapeHtml (str_or (title p) "Untitled") in
  let url := paper_href p in
  let venue := escapeHtml (str_or (venue p) "") in
  let authors := format_authors p in
  ElemHtml "div" "publication-item" (paper_markup url title authors venue).

(** ** Grouping by year *)

(** A property name of [grouped]: the decimal text of a year, which
    determines the year, or the text [Undated]. *)
Inductive key : Type :=
| YearKey (y : Z)
| Undated.

Definition key_eqb (a b : key) : bool :=
  match a, b with
  | YearKey x, YearKey y => x =? y
  | Undated, Undated => true
  | _, _ => false
  end.

(** The decimal text of an integer, as [String] gives it. *)
Definition decimal (y : Z) : string := NilZero.string_of_int (Z.to_int y).

Definition key_text (k : key) : string :=
  match k with
  | YearKey y => decimal y
  | Undated => "Undated"
  end.

(** [paper.year || 'Undated'] *)
Definition year_key (p : paper) : key :=
  if truthyZ (year p)
  then YearKey (num_or (year p) 0)
  else Undated.

(** An object, as its own properties in the order of their creation. *)
Definition object : Type := list (key * list paper).

Fixpoint get (grouped : object) (k : key) : option (list paper) :=
  match grouped with
  | [] => None
  | (k', v) :: rest => if key_eqb k k' then Some v else get rest k
  end.

(** [if (!grouped[year]) grouped[year] = []; grouped[year].push(paper)] *)
Fixpoint push_group (k : key) (p : paper) (grouped : object) : object :=
  match grouped with
  | [] => [(k, [p])]
  | (k', v) :: rest =>
      if key_eqb k k' then (k', (v ++ [p])%list) :: rest
      else (k', v) :: push_group k p rest
  end.

Definition groupByYear (papers : list paper) : object :=
  fold_left (fun grouped p => push_group (year_key p) p grouped) papers [].

(** [Object.keys]: the array indices in ascending order, then the other
    names in the order of their creation. *)
Definition is_array_index (k : key) : bool :=
  match k with
  | YearKey y => (0 <=? y) && (y <? 2 ^ 32 - 1)
  | Undated => false
  end.

Definition index_cmp (a b : key) : Z :=
  match a, b with
  | YearKey x, YearKey y => x - y
  | _, _ => 0
  end.

Definition Object_keys (o : object) : list key :=
  let names := map fst o in
  (array_sort index_cmp (filter is_array_index names)
   ++ filter (fun k => negb (is_array_index k)) names)%list.

(** ** Rendering the list *)

Definition no_results_html : string :=
  "<p style=" ++ quoted "text-align:center; color: var(--text-light); padding: 32px 0;"
  ++ ">No publications found matching your search.</p>".

Definition error_html : string :=
  nl ++ indent 12 ++ "<div class=" ++ quoted "pub-error" ++ ">" ++
  nl ++ indent 16 ++ "<p>Unable to load publications automatically. Please visit Google Scholar for the full list.</p>" ++
  nl ++ indent 16 ++ "<a href=" ++ quoted GOOGLE_SCHOLAR_URL ++ " target=" ++ quoted "_blank"
     ++ " rel=" ++ quoted "noopener" ++ " class=" ++ quoted "btn btn-primary" ++ ">" ++
  nl ++ indent 20 ++ "View on Google Scholar" ++
  nl ++ indent 16 ++ "</a>" ++
  nl ++ indent 12 ++ "</div>" ++
  nl ++ indent 8.

(** The comparator of the year headings.  The names of an object are
    distinct, so it is never asked to compare [Undated] with itself, and
    on distinct names it is a consistent order. *)
Definition key_cmp (a b : key) : Z :=
  match a, b with
  | Undated, _ => 1
  | _, Undated => -1
  | YearKey x, YearKey y => y - x
  end.

Definition sorted_years (grouped : object) : list key :=
  array_sort key_cmp (Object_keys grouped).

Definition year_section (grouped : object) (year : key) : node :=
  ElemKids "div" "year-group"
    (ElemText "h3" "year-header" (key_text year)
     :: map createPaperElement (match get grouped year with Some v => v | None => [] end)).

Definition renderGroupedPapers (grouped : object) (doc : document) : document :=
  match publications_list doc with
  | None => doc
  | Some _ =>
      let years := sorted_years grouped in
      match years with
      | [] => {| publications_list := Some (Markup no_results_html) |}
      | _ => {| publications_list := Some (Nodes (map (year_section grouped) years)) |}
      end
  end.

(** The comparator of the publications. *)
Definition paper_cmp (a b : paper) : Z :=
  let yearDiff := num_or (year b) 0 - num_or (year a) 0 in
  if negb (yearDiff =? 0) then yearDiff
  else num_or (citationCount b) 0 - num_or (citationCount a) 0.

Definition sort_papers (papers : list paper) : list paper :=
  array_sort paper_cmp papers.

Definition renderPublications (papers : list paper) (doc : document) : document :=
  let papers := sort_papers papers in
  let grouped := groupByYear papers in
  renderGroupedPapers grouped doc.

Definition renderError (doc : document) : document :=
  match publications_list doc with
  | None => doc
  | Some _ => {| publications_list := Some (Markup error_html) |}
  end.

(** ** Fetching *)

(** [data.next || null] *)
Definition cursor_or_null (f : field cursor) : field cursor :=
  if truthyC f then f else Null.

(** The [while] loop of [fetchRemainingPapers]: one request per turn; a
    failed request, a status outside 200-299 or an unreadable body leaves
    the loop with what was collected. *)
Fixpoint fetchRemainingLoop (net : network) (currentOffset : field cursor)
    (allPapers : list paper) : option (list paper * network) :=
  if negb (truthyC currentOffset) then Some (allPapers, net)
  else
    match net with
    | [] => None
    | NetworkFailure :: net' => Some (allPapers, net')
    | Response res :: net' =>
        if negb (ok res) then Some (allPapers, net')
        else
          match json res with
          | None => Some (allPapers, net')
          | Some d =>
              fetchRemainingLoop net' (cursor_or_null (next d))
                (allPapers ++ list_or_empty (data d))%list
          end
    end.

Definition fetchRemainingPapers (net : network) (offset : field cursor)
  : option (list paper * network) :=
  fetchRemainingLoop net offset [].

Definition cutoffYear (currentYear : Z) : Z :=
  currentYear - RECENT_YEAR_COUNT + 1.

(** [p => p.year && p.year >= cutoffYear] *)
Definition is_recent (cutoff : Z) (p : paper) : bool :=
  truthyZ (year p) && js_ge (year p) cutoff.

Definition recentPapers (currentYear : Z) (papers : list paper) : list paper :=
  filter (is_recent (cutoffYear currentYear)) papers.

(** The papers of all pages, or [None] when a request never completes. *)
Definition collect_papers (net : network) (papersData : page)
  : option (list paper * network) :=
  let papers := list_or_empty (data papersData) in
  if truthyC (next papersData) then
    match fetchRemainingPapers net (next papersData) with
    | None => None
    | Some (more, net') => Some ((papers ++ more)%list, net')
    end
  else Some (papers, net).

(** [fetchScholarData] on responses of the expected structure: the state
    reached, the document and the outcomes left unused.  [currentYear] is
    [new Date().getFullYear()].  On such responses neither the filter nor
    the renderer throws; [fetchScholarData_raw] below is the same code on
    bodies of any shape, with the exceptions that reach the [catch]. *)
Definition fetchScholarData (currentYear : Z) (net : network) (doc : document)
  : option (load_state * document * network) :=
  match net with
  | [] => None
  | NetworkFailure :: net' => Some (ErrorRendered, renderError doc, net')
  | Response res :: net' =>
      if negb (ok res) then Some (ErrorRendered, renderError doc, net')
      else
        match json res with
        | None => Some (ErrorRendered, renderError doc, net')
        | Some papersData =>
            match collect_papers net' papersData with
            | None => None
            | Some (papers, net'') =>
                Some (Rendered,
                      renderPublications (recentPapers currentYear papers) doc,
                      net'')
            end
        end
  end.

(** ** Markup handed to [innerHTML]

    The browser reads the markup of an [ElemHtml] with the tokenizer of
    the HTML standard.  The states a tag goes through are written out;
    character references are left undecoded, a markup declaration or
    processing instruction is skipped up to the next [>], and the
    elements whose content is raw text are not told apart. *)

Record tag : Type := {
  closing : bool;
  tag_name : string;
  attributes : list (string * string)
}.

Inductive token : Type :=
| StartTag (name : string) (attrs : list (string * string))
| EndTag (name : string)
| Character (c : ascii).

Inductive tokenizer_state : Type :=
| DataState
| TagOpen
| EndTagOpen
| TagName (t : tag)
| BeforeAttributeName (t : tag)
| AttributeName (t : tag) (n : string)
| AfterAttributeName (t : tag) (n : string)
| BeforeAttributeValue (t : tag) (n : string)
| AttributeValueDouble (t : tag) (n v : string)
| AttributeValueSingle (t : tag) (n v : string)
| AttributeValueUnquoted (t : tag) (n v : string)
| AfterAttributeValue (t : tag)
| SelfClosingStartTag (t : tag)
| BogusComment.

Definition is_whitespace (c : ascii) : bool :=
  Ascii.eqb c "009" || Ascii.eqb c "010" || Ascii.eqb c "012" || Ascii.eqb c " ".

Definition is_alpha (c : ascii) : bool :=
  let n := nat_of_ascii (to_lower c) in ((97 <=? n) && (n <=? 122))%nat.

Definition snoc (s : string) (c : ascii) : string := s ++ String c "".

(** A second attribute of the same name is dropped. *)
Definition add_attribute (t : tag) (n v : string) : tag :=
  if existsb (String.eqb n) (map fst (attributes t)) then t
  else {| closing := closing t; tag_name := tag_name t;
          attributes := (attributes t ++ [(n, v)])%list |}.

Definition name_char (t : tag) (c : ascii) : tag :=
  {| closing := closing t; tag_name := snoc (tag_name t) (to_lower c);
     attributes := attributes t |}.

Definition emit (t : tag) : list token :=
  if closing t then [EndTag (tag_name t)]
  else [StartTag (tag_name t) (attributes t)].

Definition new_tag (is_end : bool) : tag :=
  {| closing := is_end; tag_name := ""; attributes := [] |}.

Definition step_data (c : ascii) : tokenizer_state * list token :=
  if Ascii.eqb c "<" then (TagOpen, []) else (DataState, [Character c]).

Definition step_tag_name (t : tag) (c : ascii) : tokenizer_state * list token :=
  if is_whitespace c then (BeforeAttributeName t, [])
  else if Ascii.eqb c "/" then (SelfClosingStartTag t, [])
  else if Ascii.eqb c ">" then (DataState, emit t)
  else (TagName (name_char t c), []).

Definition step_attribute_name (t : tag) (n : string) (c : ascii)
  : tokenizer_state * list token :=
  if is_whitespace c then (AfterAttributeName t n, [])
  else if Ascii.eqb c "/" then (SelfClosingStartTag (add_attribute t n ""), [])
  else if Ascii.eqb c ">" then (DataState, emit (add_attribute t n ""))
  else if Ascii.eqb c "=" then (BeforeAttributeValue t n, [])
  else (AttributeName t (snoc n (to_lower c)), []).

Definition step_before_attribute_name (t : tag) (c : ascii)
  : tokenizer_state * list token :=
  if is_whitespace c then (BeforeAttributeName t, [])
  else if Ascii.eqb c "/" then (SelfClosingStartTag t, [])
  else if Ascii.eqb c ">" then (DataState, emit t)
  else if Ascii.eqb c "=" then (AttributeName t "=", [])
  else step_attribute_name t "" c.

Definition step_after_attribute_name (t : tag) (n : string) (c : ascii)
  : tokenizer_state * list token :=
  if is_whitespace c then (AfterAttributeName t n, [])
  else if Ascii.eqb c "/" then (SelfClosingStartTag (add_attribute t n ""), [])
  else if Ascii.eqb c "=" then (BeforeAttributeValue t n, [])
  else if Ascii.eqb c ">" then (DataState, emit (add_attribute t n ""))
  else step_attribute_name (add_attribute t n "") "" c.

Definition step_unquoted (t : tag) (n v : string) (c : ascii)
  : tokenizer_state * list token :=
  if is_whitespace c then (BeforeAttributeName (add_attribute t n v), [])
  else if Ascii.eqb c ">" then (DataState, emit (add_attribute t n v))
  else (AttributeValueUnquoted t n (snoc v c), []).

Definition step (st : tokenizer_state) (c : ascii) : tokenizer_state * list token :=
  match st with
  | DataState => step_data c
  | TagOpen =>
      if Ascii.eqb c "!" || Ascii.eqb c "?" then (BogusComment, [])
      else if Ascii.eqb c "/" then (EndTagOpen, [])
      else if is_alpha c then step_tag_name (new_tag false) c
      else let (st', out) := step_data c in (st', Character "<" :: out)
  | EndTagOpen =>
      if is_alpha c then step_tag_name (new_tag true) c
      else if Ascii.eqb c ">" then (DataState, [])
      else (BogusComment, [])
  | TagName t => step_tag_name t c
  | BeforeAttributeName t => step_before_attribute_name t c
  | AttributeName t n => step_attribute_name t n c
  | AfterAttributeName t n => step_after_attribute_name t n c
  | BeforeAttributeValue t n =>
      if is_whitespace c then (BeforeAttributeValue t n, [])
      else if Ascii.eqb c "034" then (AttributeValueDouble t n "", [])
      else if Ascii.eqb c "'" then (AttributeValueSingle t n "", [])
      else if Ascii.eqb c ">" then (DataState, emit (add_attribute t n ""))
      else step_unquoted t n "" c
  | AttributeValueDouble t n v =>
      if Ascii.eqb c "034" then (AfterAttributeValue (add_attribute t n v), [])
      else (AttributeValueDouble t n (snoc v c), [])
  | AttributeValueSingle t n v =>
      if Ascii.eqb c "'" then (AfterAttributeValue (add_attribute t n v), [])
      else (AttributeValueSingle t n (snoc v c), [])
  | AttributeValueUnquoted t n v => step_unquoted t n v c
  | AfterAttributeValue t =>
      if is_whitespace c then (BeforeAttributeName t, [])
      else if Ascii.eqb c "/" then (SelfClosingStartTag t, [])
      else if Ascii.eqb c ">" then (DataState, emit t)
      else step_before_attribute_name t c
  | SelfClosingStartTag t =>
      if Ascii.eqb c ">" then (DataState, emit t)
      else step_before_attribute_name t c
  | BogusComment =>
      if Ascii.eqb c ">" then (DataState, []) else (BogusComment, [])
  end.

(** At the end of the input an unfinished tag is dropped. *)
Definition at_end (st : tokenizer_state) : list token :=
  match st with
  | TagOpen => [Character "<"]
  | EndTagOpen => [Character "<"; Character "/"]
  | _ => []
  end.

Fixpoint tokens_from (st : tokenizer_state) (markup : string) : list token :=
  match markup with
  | "" => at_end st
  | String c rest =>
      let (st', out) := step st c in (out ++ tokens_from st' rest)%list
  end.

Definition tokenize (markup : string) : list token := tokens_from DataState markup.

Definition is_tag (t : token) : bool :=
  match t with
  | Character _ => false
  | _ => true
  end.

(** The tags of a markup, without the text between them. *)
Definition tags (markup : string) : list token := filter is_tag (tokenize markup).

Definition markup_of (n : node) : string :=
  match n with
  | ElemHtml _ _ markup => markup
  | _ => ""
  end.

(** The markup of a publication up to the opening quote of the link
    target. *)
Definition href_open : string :=
  nl ++ indent 8 ++ "<div class=" ++ quoted "pub-main" ++ ">" ++
  nl ++ indent 12 ++ "<a href=" ++ dq.

(** A publication whose link target closes the attribute and the tag
    and goes on with an element of its own. *)
Definition injected_url : string :=
  dq ++ "><img src=x onerror=alert(1)>".

Definition injected_paper : paper :=
  {| title := Val "A paper"; year := Val 2024; venue := Absent;
     citationCount := Absent; url := Val injected_url; authors := Absent |}.

(** ** Notions used in the statements *)

(** The keys on which the sort compares two publications. *)
Definition sort_year (p : paper) : Z := num_or (year p) 0.
Definition sort_citations (p : paper) : Z := num_or (citationCount p) 0.

(** [a] may stand before [b]: a later year, or the same year and at
    least as many citations. *)
Definition paper_le (a b : paper) : Prop :=
  sort_year b < sort_year a \/
  (sort_year a = sort_year b /\ sort_citations b <= sort_citations a).

(** [a] may stand before [b] among the year headings. *)
Definition key_before (a b : key) : Prop :=
  match a, b with
  | YearKey x, YearKey y => y <= x
  | _, Undated => True
  | Undated, YearKey _ => False
  end.

(** The number of publications held by all buckets together. *)
Definition bucket_total (grouped : object) : nat :=
  list_sum (map (fun kv => List.length (snd kv)) grouped).

(** All publications of the buckets, bucket after bucket. *)
Definition bucket_papers (grouped : object) : list paper :=
  List.concat (map snd grouped).

(** Some publication of the list has no year, or the year 0. *)
Definition has_undated (papers : list paper) : bool :=
  existsb (fun p => negb (truthyZ (year p))) papers.

(** The year headings of the rendered list, from top to bottom. *)
Definition heading (n : node) : list string :=
  match n with
  | ElemKids _ _ (ElemText _ _ text :: _) => [text]
  | _ => []
  end.

Definition headings (doc : document) : list string :=
  match publications_list doc with
  | Some (Nodes kids) => flat_map heading kids
  | _ => []
  end.

(** A request that yields no page: it fails on the network, its status
    is outside 200-299, or its body does not parse. *)
Definition request_failed (o : outcome) : bool :=
  match o with
  | NetworkFailure => true
  | Response res =>
      negb (ok res) || match json res with None => true | Some _ => false end
  end.

(** The page a request yields, if any. *)
Definition page_of (o : outcome) : option page :=
  match o with
  | NetworkFailure => None
  | Response res => if ok res then json res else None
  end.

(** The publications of the page a request yields. *)
Definition outcome_papers (o : outcome) : list paper :=
  match page_of o with
  | Some d => list_or_empty (data d)
  | None => []
  end.

(** The request yields a page that carries a continuation cursor. *)
Definition continues (o : outcome) : bool :=
  match page_of o with
  | Some d => truthyC (next d)
  | None => false
  end.


(** The reading of "the operation fails exactly when the initial
    response has a status other than success or a body that does not
    parse": the error state is reached in these two cases only. *)
Definition fails_only_on_status_or_body : Prop :=
  forall (currentYear : Z) (o : outcome) (net : network) (doc : document)
         (st : load_state) (doc' : document) (net' : network),
    fetchScholarData currentYear (o :: net) doc = Some (st, doc', net') ->
    (st = ErrorRendered <->
     exists res, o = Response res /\ (ok res = false \/ json res = None)).

(** A page on which the list is present. *)
Definition page_with_list : document :=
  {| publications_list := Some (Markup "") |}.

(** A publication whose link target is the empty string. *)
Definition empty_url_paper : paper :=
  {| title := Val "A paper"; year := Val 2024; venue := Absent;
     citationCount := Absent; url := Val ""; authors := Absent |}.

(** The state after reading a piece of markup, and the tokens emitted on
    the way. *)
Fixpoint run (st : tokenizer_state) (markup : string) : tokenizer_state * list token :=
  match markup with
  | "" => (st, [])
  | String c rest =>
      let (st', out) := step st c in
      let (st'', out') := run st' rest in (st'', (out ++ out')%list)
  end.

(** The character does not occur in the string. *)
Fixpoint lacks (c : ascii) (s : string) : bool :=
  match s with
  | "" => true
  | String a s' => negb (Ascii.eqb a c) && lacks c s'
  end.

(** ** Sample data *)

Definition sample_paper (t : string) (y c : field Z) : paper :=
  {| title := Val t; year := y; venue := Absent;
     citationCount := c; url := Absent; authors := Absent |}.

Definition paper_2021 : paper := sample_paper "Older" (Val 2021) (Val 3).
Definition paper_2023 : paper := sample_paper "Newer" (Val 2023) (Val 1).
Definition paper_2020 : paper := sample_paper "Too old" (Val 2020) (Val 9).
Definition paper_2022 : paper := sample_paper "Between" (Val 2022) Null.
Definition paper_undated : paper := sample_paper "No year" Null (Val 2).

Definition linked_paper : paper :=
  {| title := Val "A paper"; year := Val 2024; venue := Val "A venue";
     citationCount := Val 1; url := Val "https://example.org/?a=1&b=2";
     authors := Val [ {| name := Val "M. Razaviyayn" |} ] |}.

(** A first page of two publications with the cursor X. *)
Definition first_page : outcome :=
  Response {| status := 200;
              json := Some {| data := Val [paper_2021; paper_2023];
                              next := Val (CStr "X") |} |}.

(** A page whose publications are all too old. *)
Definition old_page : outcome :=
  Response {| status := 200;
              json := Some {| data := Val [paper_2020]; next := Null |} |}.

(** ** The tags a publication is meant to contribute *)

(** Read from the data state, the markup leaves the tokenizer in the
    data state and contributes the tags [ts]. *)
Definition data_piece (markup : string) (ts : list token) : Prop :=
  exists out, run DataState markup = (DataState, out) /\ filter is_tag out = ts.

Definition author_tags (a : author) : list token :=
  if regex_test_ci "razaviyayn" (escapeHtml (str_or (name a) ""))
  then [StartTag "strong" []; EndTag "strong"]
  else [].

Definition anchor_tag (href : string) : token :=
  StartTag "a" [("href", href); ("class", "pub-title");
                ("target", "_blank"); ("rel", "noopener")].

Definition template_tags (p : paper) : list token :=
  ([StartTag "div" [("class", "pub-main")]; anchor_tag (paper_href p); EndTag "a"]
   ++ (if nonempty (format_authors p)
       then StartTag "p" [("class", "pub-authors")]
            :: flat_map author_tags (list_or_empty (authors p)) ++ [EndTag "p"]
       else [])
   ++ (if nonempty (escapeHtml (str_or (venue p) ""))
       then [StartTag "p" [("class", "pub-venue")]; EndTag "p"]
       else [])
   ++ [EndTag "div"])%list.

(** ** Navigation *)

(** A [classList]: the class names of an element, each once, in order. *)
Definition classList : Type := list string.

Definition contains (cl : classList) (token : string) : bool :=
  existsb (String.eqb token) cl.

Definition class_add (token : string) (cl : classList) : classList :=
  if contains cl token then cl else (cl ++ [token])%list.

Definition class_remove (token : string) (cl : classList) : classList :=
  filter (fun t => negb (String.eqb t token)) cl.

(** [classList.toggle(token)] *)
Definition class_toggle (token : string) (cl : classList) : classList :=
  if contains cl token then class_remove token cl else class_add token cl.

(** [classList.toggle(token, force)] *)
Definition class_force (token : string) (force : bool) (cl : classList) : classList :=
  if force then class_add token cl else class_remove token cl.

Record section_box : Type := {
  section_id : string;
  offsetTop : Z
}.

(** An anchor of the navigation; [href] is [None] without the attribute. *)
Record nav_item : Type := {
  href : option string;
  item_classes : classList
}.

(** What [initNavigation] looks up: [getElementById] gives [None] for a
    missing element. *)
Record nav_page : Type := {
  navbar : option classList;
  navToggle : option classList;
  navLinks : option classList;
  sections : list section_box;
  navItems : list nav_item
}.

(** The listeners [initNavigation] installs. *)
Record listeners : Type := {
  scroll_shadow : bool;
  mobile_menu : bool;
  section_highlight : bool
}.

Definition is_some {A : Type} (o : option A) : bool :=
  match o with
  | Some _ => true
  | None => false
  end.

Definition initNavigation (p : nav_page) : listeners :=
  {| scroll_shadow := is_some (navbar p);
     mobile_menu := is_some (navToggle p) && is_some (navLinks p);
     section_highlight :=
       negb (List.length (sections p) =? 0)%nat && negb (List.length (navItems p) =? 0)%nat |}.

Inductive nav_event : Type :=
| Scroll (scrollY : Q)
| ToggleClick
| LinkClick.

(** [window.scrollY > 10] *)
Definition past_threshold (scrollY : Q) : bool := negb (Qle_bool scrollY (10 # 1)).

(** [window.scrollY >= section.offsetTop - 100] *)
Definition reached (scrollY : Q) (s : section_box) : bool :=
  Qle_bool (inject_Z (offsetTop s - 100)) scrollY.

(** The loop over the sections: the id of the last one reached. *)
Definition current_section (scrollY : Q) (secs : list section_box) : string :=
  fold_left (fun current s => if reached scrollY s then section_id s else current)
            secs "".

(** [item.getAttribute('href') === `#${current}`] *)
Definition links_to (current : string) (item : nav_item) : bool :=
  match href item with
  | Some h => String.eqb h ("#" ++ current)
  | None => false
  end.

Definition highlight (current : string) (item : nav_item) : nav_item :=
  {| href := href item;
     item_classes := class_force "active" (links_to current item) (item_classes item) |}.

Definition on_classes (f : classList -> classList) (o : option classList)
  : option classList :=
  match o with
  | Some cl => Some (f cl)
  | None => None
  end.

(** One event, handled by the listeners installed. *)
Definition handle (l : listeners) (e : nav_event) (p : nav_page) : nav_page :=
  match e with
  | Scroll y =>
      {| navbar := if scroll_shadow l
                   then on_classes (class_force "scrolled" (past_threshold y)) (navbar p)
                   else navbar p;
         navToggle := navToggle p;
         navLinks := navLinks p;
         sections := sections p;
         navItems := if section_highlight l
                     then map (highlight (current_section y (sections p))) (navItems p)
                     else navItems p |}
  | ToggleClick =>
      if mobile_menu l then
        {| navbar := navbar p;
           navToggle := on_classes (class_toggle "active") (navToggle p);
           navLinks := on_classes (class_toggle "active") (navLinks p);
           sections := sections p;
           navItems := navItems p |}
      else p
  | LinkClick =>
      if mobile_menu l then
        {| navbar := navbar p;
           navToggle := on_classes (class_remove "active") (navToggle p);
           navLinks := on_classes (class_remove "active") (navLinks p);
           sections := sections p;
           navItems := navItems p |}
      else p
  end.

(** The page after the events, handled one after the other by the
    listeners installed when the page had loaded. *)
Definition after_events (p : nav_page) (events : list nav_event) : nav_page :=
  fold_left (fun q e => handle (initNavigation p) e q) events p.

(** ** Notions used in the further statements *)

(** The element carries the class [active]; a missing element does not. *)
Definition is_active (o : option classList) : bool :=
  match o with
  | Some cl => contains cl "active"
  | None => false
  end.

(** The menu as the clicks alone tell it: a click on the button flips it,
    a click on a link closes it, scrolling leaves it. *)
Fixpoint open_after (start : bool) (events : list nav_event) : bool :=
  match events with
  | [] => start
  | ToggleClick :: rest => open_after (negb start) rest
  | LinkClick :: rest => open_after false rest
  | Scroll _ :: rest => open_after start rest
  end.

(** The publication elements of the rendered list, from top to bottom. *)
Definition section_items (n : node) : list node :=
  match n with
  | ElemKids _ _ (_ :: kids) => kids
  | _ => []
  end.

Definition items (doc : document) : list node :=
  match publications_list doc with
  | Some (Nodes kids) => flat_map section_items kids
  | _ => []
  end.

(** The publication falls into the bucket [k]. *)
Definition has_key (k : key) (p : paper) : bool := key_eqb (year_key p) k.

(** A name that is missing, null or empty. *)
Definition no_name (a : author) : bool := negb (nonempty (str_or (name a) "")).

(** The string in lower case letters. *)
Fixpoint lower (s : string) : string :=
  match s with
  | "" => ""
  | String c s' => String (to_lower c) (lower s')
  end.

Definition token_name (t : token) : string :=
  match t with
  | StartTag n _ => n
  | EndTag n => n
  | Character _ => ""
  end.

(** A navigation with every element in place. *)
Definition sample_nav : nav_page :=
  {| navbar := Some ["navbar"];
     navToggle := Some ["nav-toggle"];
     navLinks := Some ["nav-links"];
     sections := [ {| section_id := "home"; offsetTop := 0 |};
                   {| section_id := "publications"; offsetTop := 600 |};
                   {| section_id := "contact"; offsetTop := 1400 |} ];
     navItems := [ {| href := Some "#home"; item_classes := [] |};
                   {| href := Some "#publications"; item_classes := [] |};
                   {| href := Some "#contact"; item_classes := [] |} ] |}.

(** ** Bodies of any shape

    The same code on whatever a response may hold where a page, a list
    or a record is expected.  An exception is an [option] without value;
    inside [fetchRemainingPapers] it ends the loop, elsewhere it reaches
    the [catch] of [fetchScholarData]. *)

(** An element of a list of records.  A number, a string, a boolean or
    an array in that place reads as a record without fields. *)
Inductive raw_record : Type :=
| NullRecord
    (* null: reading [year] throws *)
| PlainRecord (p : paper)
    (* an object whose authors are falsy, or an array without null *)
| UnusableAuthors (p : paper).
    (* an object whose authors are a truthy value without [map], or an
       array holding null; the authors of [p] are not looked at *)

(** The value of the field [data]. *)
Inductive raw_data : Type :=
| NoData
    (* absent, null, false, 0 or the empty string *)
| DataArray (records : list raw_record)
| DataText (s : string)
    (* a string that is not empty *)
| DataOther.
    (* true, a number other than 0, or an object *)

(** What [res.json()] gives. *)
Inductive raw_body : Type :=
| InvalidJson
    (* the promise rejects *)
| NullBody
| Body (d : raw_data) (cursor : field cursor).

Inductive raw_outcome : Type :=
| RawNetworkFailure
| RawResponse (code : Z) (b : raw_body).

(** [res.ok] *)
Definition status_ok (code : Z) : bool := (200 <=? code) && (code <=? 299).

Definition blank_paper : paper :=
  {| title := Absent; year := Absent; venue := Absent;
     citationCount := Absent; url := Absent; authors := Absent |}.

Definition fields (r : raw_record) : paper :=
  match r with
  | NullRecord => blank_paper
  | PlainRecord p => p
  | UnusableAuthors p => p
  end.

(** [createPaperElement] returns for the record. *)
Definition usable (r : raw_record) : bool :=
  match r with
  | UnusableAuthors _ => false
  | _ => true
  end.

(** [...(data.data || [])]: the elements spread into [push]; a string
    gives its characters, a value that cannot be iterated throws. *)
Definition spread (d : raw_data) : option (list raw_record) :=
  match d with
  | NoData => Some []
  | DataArray records => Some records
  | DataText s => Some (map (fun _ => PlainRecord blank_paper) (list_ascii_of_string s))
  | DataOther => None
  end.

Fixpoint fetchRemainingLoop_raw (net : list raw_outcome) (currentOffset : field cursor)
    (allPapers : list raw_record) : option (list raw_record * list raw_outcome) :=
  if negb (truthyC currentOffset) then Some (allPapers, net)
  else
    match net with
    | [] => None
    | RawNetworkFailure :: net' => Some (allPapers, net')
    | RawResponse code b :: net' =>
        if negb (status_ok code) then Some (allPapers, net')
        else
          match b with
          | InvalidJson => Some (allPapers, net')
          | NullBody => Some (allPapers, net')
          | Body d cursor =>
              match spread d with
              | None => Some (allPapers, net')
              | Some records =>
                  fetchRemainingLoop_raw net' (cursor_or_null cursor)
                    (allPapers ++ records)%list
              end
          end
    end.

(** [papers.filter(p => p.year && p.year >= cutoffYear)] on an array. *)
Fixpoint filter_raw (cutoff : Z) (papers : list raw_record) : option (list raw_record) :=
  match papers with
  | [] => Some []
  | NullRecord :: _ => None
  | r :: rest =>
      match filter_raw cutoff rest with
      | None => None
      | Some kept => Some (if is_recent cutoff (fields r) then r :: kept else kept)
      end
  end.

(** [renderPublications] on the records kept: sorting and grouping read
    the year and the citation count only; [createPaperElement] runs when
    the list is on the page, and throws on authors it cannot use. *)
Definition renderPublications_raw (kept : list raw_record) (doc : document)
  : option document :=
  match publications_list doc with
  | None => Some doc
  | Some _ =>
      if forallb usable kept
      then Some (renderPublications (map fields kept) doc)
      else None
  end.

(** [papersData.data || []], then [concat] when there is a cursor, then
    [filter]: only an array has both methods to the end. *)
Definition first_page_records (d : raw_data) : option (list raw_record) :=
  match d with
  | NoData => Some []
  | DataArray records => Some records
  | DataText _ => None
  | DataOther => None
  end.

Definition fetchScholarData_raw (currentYear : Z) (net : list raw_outcome) (doc : document)
  : option (load_state * document * list raw_outcome) :=
  match net with
  | [] => None
  | RawNetworkFailure :: net' => Some (ErrorRendered, renderError doc, net')
  | RawResponse code b :: net' =>
      if negb (status_ok code) then Some (ErrorRendered, renderError doc, net')
      else
        match b with
        | InvalidJson => Some (ErrorRendered, renderError doc, net')
        | NullBody => Some (ErrorRendered, renderError doc, net')
        | Body d cursor =>
            match (if truthyC cursor
                   then fetchRemainingLoop_raw net' cursor []
                   else Some ([], net')) with
            | None => None
            | Some (more, net'') =>
                match first_page_records d with
                | None => Some (ErrorRendered, renderError doc, net'')
                | Some papers =>
                    match filter_raw (cutoffYear currentYear) (papers ++ more)%list with
                    | None => Some (ErrorRendered, renderError doc, net'')
                    | Some kept =>
                        match renderPublications_raw kept doc with
                        | None => Some (ErrorRendered, renderError doc, net'')
                        | Some doc' => Some (Rendered, doc', net'')
                        end
                    end
                end
            end
        end
  end.

(** A response of the expected structure among the bodies of any shape. *)
Definition raw_of (o : outcome) : raw_outcome :=
  match o with
  | NetworkFailure => RawNetworkFailure
  | Response res =>
      RawResponse (status res)
        match json res with
        | None => InvalidJson
        | Some d =>
            Body match data d with
                 | Val records => DataArray (map PlainRecord records)
                 | _ => NoData
                 end
                 (next d)
        end
  end.

(** The first request gives no page: it fails on the network, its status
    is outside 200-299, its body is no JSON text or is null. *)
Definition first_request_fails (o : raw_outcome) : bool :=
  match o with
  | RawNetworkFailure => true
  | RawResponse code b =>
      negb (status_ok code) ||
      match b with
      | Body _ _ => false
      | _ => true
      end
  end.

(** The first page has a [data] that is truthy and no array. *)
Definition data_is_no_array (o : raw_outcome) : bool :=
  match o with
  | RawResponse code (Body (DataText _) _) => status_ok code
  | RawResponse code (Body DataOther _) => status_ok code
  | _ => false
  end.

(** The records a used outcome adds to the list. *)
Definition outcome_records (o : raw_outcome) : list raw_record :=
  match o with
  | RawResponse code (Body d _) =>
      if status_ok code
      then match spread d with Some records => records | None => [] end
      else []
  | _ => []
  end.

Definition is_null (r : raw_record) : bool :=
  match r with
  | NullRecord => true
  | _ => false
  end.

(** The records of the list that pass the filter. *)
Definition recent_records (currentYear : Z) (papers : list raw_record) : list raw_record :=
  filter (fun r => is_recent (cutoffYear currentYear) (fields r)) papers.

(** An exception reaches the [catch]: the first request gives no page,
    its [data] is no array, a record collected is null, or the list is on
    the page and a record that passes the filter has authors that cannot
    be used. *)
Definition exception_thrown (currentYear : Z) (doc : document) (o : raw_outcome)
    (used : list raw_outcome) : bool :=
  first_request_fails o || data_is_no_array o ||
  existsb is_null (flat_map outcome_records (o :: used)) ||
  (is_some (publications_list doc) &&
   negb (forallb usable (recent_records currentYear (flat_map outcome_records (o :: used))))).

(** The attributes of a tag without their values. *)
Definition token_shape (t : token) : token :=
  match t with
  | StartTag n attrs => StartTag n (map (fun a => (fst a, "")) attrs)
  | _ => t
  end.


(** * Properties *)

(** ** The sort *)

Section ArraySortFacts.
Context {A : Type}.
Variable comparefn : A -> A -> Z.

Lemma sort_insert_perm (x : A) (l : list A) :
  Permutation (x :: l) (sort_insert comparefn x l).
Proof.
  induction l as [|y l IH]; simpl.
  - apply Permutation_refl.
  - destruct (comparefn x y <=? 0).
    + apply Permutation_refl.
    + eapply perm_trans; [apply perm_swap|].
      apply perm_skip, IH.
Qed.

Lemma array_sort_perm (l : list A) : Permutation l (array_sort comparefn l).
Proof.
  induction l as [|x l IH]; simpl.
  - apply perm_nil.
  - eapply perm_trans; [apply perm_skip, IH|].
    apply sort_insert_perm.
Qed.

Lemma array_sort_in (l : list A) (x : A) :
  In x (array_sort comparefn l) <-> In x l.
Proof.
  split; apply Permutation_in;
    [apply Permutation_sym|]; apply array_sort_perm.
Qed.

(** [R] reads "may stand before": what a comparison says about two
    elements, in either direction. *)
Variable R : A -> A -> Prop.
Hypothesis R_of_le : forall x y, comparefn x y <= 0 -> R x y.
Hypothesis R_of_gt : forall x y, 0 < comparefn x y -> R y x.
Hypothesis R_trans : forall x y z, R x y -> R y z -> R x z.

Lemma sort_insert_sorted (x : A) (l : list A) :
  StronglySorted R l -> StronglySorted R (sort_insert comparefn x l).
Proof.
  induction 1 as [|y l Hs IH Hy]; simpl.
  - constructor; constructor.
  - destruct (Z.leb_spec (comparefn x y) 0) as [Hle|Hgt].
    + constructor; [constructor; assumption|].
      constructor; [auto|].
      eapply Forall_impl; [|exact Hy].
      intros z Hz. apply R_trans with y; auto.
    + constructor; [assumption|].
      apply Forall_forall. intros z Hz.
      apply (Permutation_in _ (Permutation_sym (sort_insert_perm x l))) in Hz.
      destruct Hz as [<-|Hz]; [auto|].
      rewrite Forall_forall in Hy. auto.
Qed.

Lemma array_sort_sorted (l : list A) : StronglySorted R (array_sort comparefn l).
Proof.
  induction l as [|x l IH]; simpl.
  - constructor.
  - apply sort_insert_sorted, IH.
Qed.
End ArraySortFacts.

(** In a strongly sorted list the earlier of two positions holds the
    element that may stand before the other. *)
Lemma StronglySorted_nth {A : Type} (R : A -> A -> Prop) (l : list A) :
  StronglySorted R l ->
  forall (i j : nat) (a b : A),
    (i < j)%nat -> nth_error l i = Some a -> nth_error l j = Some b -> R a b.
Proof.
  induction 1 as [|x l Hs IH Hx]; intros i j a b Hij Hi Hj.
  - destruct i; discriminate.
  - destruct j as [|j]; [lia|].
    destruct i as [|i]; simpl in *.
    + injection Hi as <-.
      rewrite Forall_forall in Hx. apply Hx.
      eapply nth_error_In; eassumption.
    + apply (IH i j); auto. lia.
Qed.

(** ** Sorting the publications *)

Lemma paper_cmp_le (a b : paper) : paper_cmp a b <= 0 -> paper_le a b.
Proof.
  unfold paper_cmp, paper_le, sort_year, sort_citations.
  destruct (Z.eqb_spec (num_or (year b) 0 - num_or (year a) 0) 0); simpl; lia.
Qed.

Lemma paper_cmp_gt (a b : paper) : 0 < paper_cmp a b -> paper_le b a.
Proof.
  unfold paper_cmp, paper_le, sort_year, sort_citations.
  destruct (Z.eqb_spec (num_or (year b) 0 - num_or (year a) 0) 0); simpl; lia.
Qed.

Lemma paper_le_trans (a b c : paper) : paper_le a b -> paper_le b c -> paper_le a c.
Proof. unfold paper_le. lia. Qed.

Lemma sort_papers_sorted (papers : list paper) :
  StronglySorted paper_le (sort_papers papers).
Proof.
  apply array_sort_sorted.
  - exact paper_cmp_le.
  - exact paper_cmp_gt.
  - exact paper_le_trans.
Qed.

Lemma sort_papers_perm (papers : list paper) :
  Permutation papers (sort_papers papers).
Proof. apply array_sort_perm. Qed.

(** The sort is stable: elements that compare as equal keep their
    order. *)
Lemma sort_insert_filter {A : Type} (cmp : A -> A -> Z) (f : A -> bool) (x : A) (l : list A) :
  (forall y, In y l -> f x = true -> f y = true -> cmp x y <= 0) ->
  filter f (sort_insert cmp x l) = filter f (x :: l).
Proof.
  induction l as [|y l IH]; intros H; simpl; [reflexivity|].
  destruct (Z.leb_spec (cmp x y) 0) as [Hle|Hgt]; [reflexivity|].
  simpl. rewrite IH by (intros z Hz; apply H; right; exact Hz).
  simpl. destruct (f x) eqn:Hx, (f y) eqn:Hy; try reflexivity.
  specialize (H y (or_introl eq_refl) eq_refl Hy). lia.
Qed.

Lemma array_sort_stable {A : Type} (cmp : A -> A -> Z) (f : A -> bool) (l : list A) :
  (forall x y, f x = true -> f y = true -> cmp x y <= 0) ->
  filter f (array_sort cmp l) = filter f l.
Proof.
  intros H. induction l as [|x l IH]; simpl; [reflexivity|].
  rewrite sort_insert_filter by (intros y _; apply H).
  simpl. rewrite IH. reflexivity.
Qed.

Lemma sort_papers_stable (papers : list paper) (y c : Z) :
  let same p := (sort_year p =? y) && (sort_citations p =? c) in
  filter same (sort_papers papers) = filter same papers.
Proof.
  intros same. apply array_sort_stable.
  intros a b Ha Hb. unfold same in Ha, Hb.
  apply andb_true_iff in Ha, Hb.
  destruct Ha as [Ha1 Ha2], Hb as [Hb1 Hb2].
  apply Z.eqb_eq in Ha1, Ha2, Hb1, Hb2.
  unfold paper_cmp, sort_year, sort_citations in *.
  destruct (Z.eqb_spec (num_or (year b) 0 - num_or (year a) 0) 0); simpl; lia.
Qed.

(** C5. In the sorted list a publication of a later year stands before
    one of an earlier year, and within one year the one cited more often
    stands before the one cited less; a missing year or citation count
    counts as 0.  The sorted list holds the same publications as the
    input.  Nothing is said of two publications equal on both keys. *)
Theorem sort_order_year_then_citations (papers : list paper) :
  Permutation papers (sort_papers papers) /\
  forall (i j : nat) (a b : paper),
    nth_error (sort_papers papers) i = Some a ->
    nth_error (sort_papers papers) j = Some b ->
    (num_or (year a) 0 > num_or (year b) 0 -> (i < j)%nat) /\
    (num_or (year a) 0 = num_or (year b) 0 ->
     num_or (citationCount a) 0 > num_or (citationCount b) 0 -> (i < j)%nat).
Proof.
  split; [apply sort_papers_perm|].
  intros i j a b Hi Hj.
  assert (Hback : (j < i)%nat -> paper_le b a).
  { intros Hji.
    exact (StronglySorted_nth paper_le _ (sort_papers_sorted papers) j i b a Hji Hj Hi). }
  assert (Hsame : i = j -> a = b) by (intros ->; congruence).
  unfold paper_le, sort_year, sort_citations in Hback.
  split.
  - intros Hy.
    destruct (Nat.lt_total i j) as [H|[H|H]]; [exact H| |].
    + apply Hsame in H. subst b. lia.
    + apply Hback in H. lia.
  - intros Hy Hc.
    destruct (Nat.lt_total i j) as [H|[H|H]]; [exact H| |].
    + apply Hsame in H. subst b. lia.
    + apply Hback in H. lia.
Qed.

(** ** Grouping *)

Lemma key_eqb_eq (a b : key) : key_eqb a b = true <-> a = b.
Proof.
  destruct a as [x|], b as [y|]; simpl; try (split; congruence).
  rewrite Z.eqb_eq. split; congruence.
Qed.

Lemma key_eqb_refl (a : key) : key_eqb a a = true.
Proof. apply key_eqb_eq. reflexivity. Qed.

Lemma push_group_total (k : key) (p : paper) (g : object) :
  bucket_total (push_group k p g) = S (bucket_total g).
Proof.
  unfold bucket_total.
  induction g as [|[k' v] g IH]; simpl; [reflexivity|].
  destruct (key_eqb k k'); simpl.
  - rewrite length_app. simpl. lia.
  - rewrite IH. lia.
Qed.

Lemma push_group_papers (k : key) (p : paper) (g : object) :
  Permutation (bucket_papers (push_group k p g)) (p :: bucket_papers g).
Proof.
  unfold bucket_papers.
  induction g as [|[k' v] g IH]; simpl; [apply Permutation_refl|].
  destruct (key_eqb k k'); simpl.
  - rewrite <- app_assoc. simpl.
    apply Permutation_sym, Permutation_middle.
  - eapply perm_trans; [apply Permutation_app_head, IH|].
    apply Permutation_sym, Permutation_middle.
Qed.

(** A publication joins the bucket of its key, which is created at the
    end when it does not exist yet. *)
Lemma push_group_keys (k : key) (p : paper) (g : object) :
  map fst (push_group k p g) =
  if existsb (key_eqb k) (map fst g) then map fst g else (map fst g ++ [k])%list.
Proof.
  induction g as [|[k' v] g IH]; simpl; [reflexivity|].
  destruct (key_eqb k k'); simpl; [reflexivity|].
  rewrite IH. destruct (existsb (key_eqb k) (map fst g)); reflexivity.
Qed.

Lemma existsb_key_in (k : key) (l : list key) :
  existsb (key_eqb k) l = true <-> In k l.
Proof.
  rewrite existsb_exists. split.
  - intros [x [Hx He]]. apply key_eqb_eq in He. subst. exact Hx.
  - intros H. exists k. split; [exact H|apply key_eqb_refl].
Qed.

Lemma push_group_nodup (k : key) (p : paper) (g : object) :
  NoDup (map fst g) -> NoDup (map fst (push_group k p g)).
Proof.
  intros H. rewrite push_group_keys.
  destruct (existsb (key_eqb k) (map fst g)) eqn:E; [exact H|].
  apply NoDup_app; [exact H|repeat constructor; simpl; tauto|].
  intros x Hx [<-|[]].
  apply existsb_key_in in Hx. congruence.
Qed.

Lemma push_group_in (k : key) (p : paper) (g : object) (x : key) :
  In x (map fst (push_group k p g)) <-> x = k \/ In x (map fst g).
Proof.
  rewrite push_group_keys.
  destruct (existsb (key_eqb k) (map fst g)) eqn:E.
  - apply existsb_key_in in E. split; [tauto|].
    intros [->|H]; assumption.
  - rewrite in_app_iff. simpl. split; intros H; intuition congruence.
Qed.

Section GroupFold.
Let step (grouped : object) (p : paper) : object :=
  push_group (year_key p) p grouped.

Lemma group_fold_total (papers : list paper) (g : object) :
  bucket_total (fold_left step papers g) = (bucket_total g + List.length papers)%nat.
Proof.
  revert g. induction papers as [|p papers IH]; intros g; simpl; [lia|].
  rewrite IH. unfold step. rewrite push_group_total. lia.
Qed.

Lemma group_fold_papers (papers : list paper) (g : object) :
  Permutation (bucket_papers (fold_left step papers g)) (bucket_papers g ++ papers).
Proof.
  revert g. induction papers as [|p papers IH]; intros g; simpl.
  - rewrite app_nil_r. apply Permutation_refl.
  - eapply perm_trans; [apply IH|].
    eapply perm_trans; [apply Permutation_app_tail, push_group_papers|].
    simpl. apply Permutation_middle.
Qed.

Lemma group_fold_nodup (papers : list paper) (g : object) :
  NoDup (map fst g) -> NoDup (map fst (fold_left step papers g)).
Proof.
  revert g. induction papers as [|p papers IH]; intros g H; simpl; [exact H|].
  apply IH, push_group_nodup, H.
Qed.

Lemma group_fold_in (papers : list paper) (g : object) (k : key) :
  In k (map fst (fold_left step papers g)) <->
  In k (map fst g) \/ exists p, In p papers /\ year_key p = k.
Proof.
  revert g. induction papers as [|p papers IH]; intros g; simpl.
  - split; [tauto|]. intros [H|[p [[] _]]]. exact H.
  - rewrite IH. unfold step. rewrite push_group_in. split.
    + intros [[->|H]|[q [Hq Hk]]]; eauto.
    + intros [H|[q [[->|Hq] Hk]]]; eauto.
Qed.
End GroupFold.

Lemma groupByYear_nodup (papers : list paper) :
  NoDup (map fst (groupByYear papers)).
Proof. apply group_fold_nodup. constructor. Qed.

Lemma groupByYear_in (papers : list paper) (k : key) :
  In k (map fst (groupByYear papers)) <-> exists p, In p papers /\ year_key p = k.
Proof.
  unfold groupByYear. rewrite group_fold_in. simpl. tauto.
Qed.

(** C7. Grouping is lossless: the buckets together hold as many
    publications as the list that was grouped, and hold the very
    publications of that list, none dropped and none twice. *)
Theorem grouping_lossless (papers : list paper) :
  bucket_total (groupByYear papers) = List.length papers /\
  Permutation (bucket_papers (groupByYear papers)) papers.
Proof.
  split.
  - unfold groupByYear. rewrite group_fold_total. reflexivity.
  - unfold groupByYear.
    eapply perm_trans; [apply group_fold_papers|]. apply Permutation_refl.
Qed.

(** ** The order of the year headings *)

Lemma key_cmp_le (a b : key) : key_cmp a b <= 0 -> key_before a b.
Proof. destruct a, b; simpl; try lia; trivial. Qed.

Lemma key_cmp_gt (a b : key) : 0 < key_cmp a b -> key_before b a.
Proof. destruct a, b; simpl; try lia; trivial. Qed.

Lemma key_before_trans (a b c : key) :
  key_before a b -> key_before b c -> key_before a c.
Proof. destruct a, b, c; simpl; try lia; trivial. Qed.

Lemma filter_split_perm {A : Type} (f : A -> bool) (l : list A) :
  Permutation l (filter f l ++ filter (fun x => negb (f x)) l).
Proof.
  induction l as [|x l IH]; simpl; [apply perm_nil|].
  destruct (f x); simpl.
  - apply perm_skip, IH.
  - eapply perm_trans; [apply perm_skip, IH|]. apply Permutation_middle.
Qed.

Lemma Object_keys_perm (o : object) : Permutation (map fst o) (Object_keys o).
Proof.
  unfold Object_keys.
  eapply perm_trans; [apply (filter_split_perm is_array_index)|].
  apply Permutation_app_tail, array_sort_perm.
Qed.

Lemma sorted_years_perm (grouped : object) :
  Permutation (map fst grouped) (sorted_years grouped).
Proof.
  eapply perm_trans; [apply Object_keys_perm|]. apply array_sort_perm.
Qed.

Lemma sorted_years_sorted (grouped : object) :
  StronglySorted key_before (sorted_years grouped).
Proof.
  apply array_sort_sorted.
  - exact key_cmp_le.
  - exact key_cmp_gt.
  - exact key_before_trans.
Qed.

(** Distinct keys in heading order: the years, strictly descending, and
    then [Undated] if it is among them. *)
Lemma heading_order_shape (l : list key) :
  NoDup l -> StronglySorted key_before l ->
  exists ys : list Z,
    StronglySorted Z.gt ys /\
    l = (map YearKey ys ++ if existsb (key_eqb Undated) l then [Undated] else [])%list.
Proof.
  induction l as [|k l IH]; intros Hnd Hs.
  - exists []. split; [constructor|reflexivity].
  - inversion Hnd as [|? ? Hk Hnd']; subst.
    inversion Hs as [|? ? Hs' Hall]; subst.
    destruct k as [y|].
    + destruct (IH Hnd' Hs') as [ys [Hys Hl]].
      exists (y :: ys). split.
      * constructor; [exact Hys|].
        apply Forall_forall. intros y' Hy'.
        assert (Hin : In (YearKey y') l).
        { rewrite Hl. apply in_or_app. left. apply in_map. exact Hy'. }
        rewrite Forall_forall in Hall. specialize (Hall _ Hin). simpl in Hall.
        assert (y' <> y) by (intros ->; contradiction).
        lia.
      * simpl. f_equal. exact Hl.
    + destruct l as [|k' l].
      * exists []. split; [constructor|reflexivity].
      * exfalso. inversion Hall as [|? ? Hk' _]; subst.
        destruct k'; simpl in Hk'; [exact Hk'|].
        apply Hk. left. reflexivity.
Qed.

Lemma sorted_years_shape (grouped : object) :
  NoDup (map fst grouped) ->
  exists ys : list Z,
    StronglySorted Z.gt ys /\
    sorted_years grouped =
      (map YearKey ys ++
       if existsb (key_eqb Undated) (map fst grouped) then [Undated] else [])%list.
Proof.
  intros Hnd.
  pose proof (sorted_years_perm grouped) as Hp.
  destruct (heading_order_shape (sorted_years grouped)) as [ys [Hys Hl]].
  - eapply Permutation_NoDup; eassumption.
  - apply sorted_years_sorted.
  - exists ys. split; [exact Hys|].
    rewrite Hl at 1. f_equal.
    destruct (existsb (key_eqb Undated) (sorted_years grouped)) eqn:E1,
             (existsb (key_eqb Undated) (map fst grouped)) eqn:E2; try reflexivity.
    + apply existsb_key_in in E1.
      apply (Permutation_in _ (Permutation_sym Hp)), existsb_key_in in E1. congruence.
    + apply existsb_key_in in E2.
      apply (Permutation_in _ Hp), existsb_key_in in E2. congruence.
Qed.

(** The text of a year heading tells the key. *)
Lemma decimal_first_char (y : Z) :
  exists c s, decimal y = String c s /\ c <> "U"%char.
Proof.
  unfold decimal, NilZero.string_of_int.
  destruct (Z.to_int y) as [d|d].
  - destruct d; simpl; eexists _, _; (split; [reflexivity|discriminate]).
  - simpl. eexists _, _. split; [reflexivity|discriminate].
Qed.

Lemma decimal_not_undated (y : Z) : decimal y <> "Undated".
Proof.
  destruct (decimal_first_char y) as [c [s [E Hc]]].
  rewrite E. intros H. injection H as -> _. apply Hc. reflexivity.
Qed.

Lemma to_int_parses (y : Z) :
  NilZero.int_of_string (decimal y) = Some (Z.to_int y).
Proof.
  unfold decimal. apply NilZero.isi.
  - destruct y as [|p|p]; simpl; try discriminate.
    intros H. injection H as H. exact (DecimalPos.Unsigned.to_uint_nonnil p H).
  - destruct y as [|p|p]; simpl; try discriminate.
    intros H. injection H as H. exact (DecimalPos.Unsigned.to_uint_nonnil p H).
Qed.

Lemma decimal_inj (x y : Z) : decimal x = decimal y -> x = y.
Proof.
  intros H.
  apply (f_equal NilZero.int_of_string) in H.
  rewrite !to_int_parses in H. injection H as H.
  apply DecimalZ.to_int_inj. exact H.
Qed.

Lemma key_text_inj (a b : key) : key_text a = key_text b -> a = b.
Proof.
  destruct a as [x|], b as [y|]; simpl; intros H.
  - f_equal. apply decimal_inj. exact H.
  - exfalso. exact (decimal_not_undated x H).
  - exfalso. symmetry in H. exact (decimal_not_undated y H).
  - reflexivity.
Qed.

Lemma headings_sections (grouped : object) (years : list key) :
  flat_map heading (map (year_section grouped) years) = map key_text years.
Proof.
  induction years as [|k years IH]; simpl; [reflexivity|].
  f_equal. exact IH.
Qed.

Lemma headings_rendered (grouped : object) (doc : document) (c : content) :
  publications_list doc = Some c ->
  headings (renderGroupedPapers grouped doc) = map key_text (sorted_years grouped).
Proof.
  intros Hc. unfold renderGroupedPapers. rewrite Hc.
  destruct (sorted_years grouped) as [|k years] eqn:E; [reflexivity|].
  unfold headings. cbn [publications_list].
  apply headings_sections.
Qed.

Lemma year_key_undated (p : paper) :
  year_key p = Undated <-> truthyZ (year p) = false.
Proof.
  unfold year_key. destruct (truthyZ (year p)); split; congruence.
Qed.

Lemma year_key_year (p : paper) (y : Z) :
  year_key p = YearKey y <-> year p = Val y /\ y <> 0.
Proof.
  unfold year_key, truthyZ, num_or.
  destruct (year p) as [| |n]; simpl; try (split; [discriminate|intros [? _]; discriminate]).
  destruct (Z.eqb_spec n 0); simpl; split.
  - discriminate.
  - intros [H ?]. injection H as ->. contradiction.
  - intros H. injection H as ->. auto.
  - intros [H _]. injection H as ->. reflexivity.
Qed.

Lemma groupByYear_has_undated (papers : list paper) :
  existsb (key_eqb Undated) (map fst (groupByYear papers)) = has_undated papers.
Proof.
  unfold has_undated.
  destruct (existsb (fun p => negb (truthyZ (year p))) papers) eqn:E.
  - apply existsb_key_in, groupByYear_in.
    apply existsb_exists in E. destruct E as [p [Hp Ht]].
    exists p. split; [exact Hp|].
    apply year_key_undated. destruct (truthyZ (year p)); [discriminate|reflexivity].
  - destruct (existsb (key_eqb Undated) (map fst (groupByYear papers))) eqn:E'; [|reflexivity].
    apply existsb_key_in, groupByYear_in in E'. destruct E' as [p [Hp Hk]].
    apply year_key_undated in Hk.
    assert (existsb (fun p => negb (truthyZ (year p))) papers = true).
    { apply existsb_exists. exists p. rewrite Hk. auto. }
    congruence.
Qed.

(** The headings of a rendered grouping: the distinct years of the
    publications, strictly descending, then [Undated] when a publication
    lacks a year. *)
Lemma headings_grouped (papers : list paper) (doc : document) (c : content) :
  publications_list doc = Some c ->
  exists ys : list Z,
    StronglySorted Z.gt ys /\
    (forall y, In y ys <-> exists p, In p papers /\ year p = Val y /\ y <> 0) /\
    headings (renderGroupedPapers (groupByYear papers) doc) =
      (map decimal ys ++ if has_undated papers then ["Undated"] else [])%list.
Proof.
  intros Hc.
  destruct (sorted_years_shape (groupByYear papers) (groupByYear_nodup papers))
    as [ys [Hys Hl]].
  rewrite groupByYear_has_undated in Hl.
  exists ys. split; [exact Hys|]. split.
  - intros y.
    assert (H : In y ys <-> In (YearKey y) (sorted_years (groupByYear papers))).
    { rewrite Hl, in_app_iff, in_map_iff. split.
      - intros H. left. exists y. auto.
      - intros [[y' [Hy' H]]|H].
        + injection Hy' as ->. exact H.
        + destruct (has_undated papers); simpl in H; [destruct H as [H|[]]; discriminate|destruct H]. }
    rewrite H. split.
    + intros Hin.
      apply (Permutation_in _ (Permutation_sym (sorted_years_perm _))) in Hin.
      apply groupByYear_in in Hin. destruct Hin as [p [Hp Hk]].
      exists p. split; [exact Hp|]. apply year_key_year. exact Hk.
    + intros [p [Hp Hk]].
      apply (Permutation_in _ (sorted_years_perm _)), groupByYear_in.
      exists p. split; [exact Hp|]. apply year_key_year. exact Hk.
  - rewrite (headings_rendered _ _ _ Hc), Hl, map_app, map_map. simpl.
    f_equal. destruct (has_undated papers); reflexivity.
Qed.


(** ** The recency filter *)

Lemma is_recent_spec (cutoff : Z) (p : paper) :
  is_recent cutoff p = true <-> exists y, year p = Val y /\ y <> 0 /\ cutoff <= y.
Proof.
  unfold is_recent, truthyZ, js_ge.
  destruct (year p) as [| |n]; simpl.
  - split; [discriminate|]. intros [y [H _]]. discriminate.
  - split; [discriminate|]. intros [y [H _]]. discriminate.
  - rewrite andb_true_iff, negb_true_iff, Z.eqb_neq, Z.leb_le. split.
    + intros [H1 H2]. exists n. auto.
    + intros [y [H [H1 H2]]]. injection H as ->. auto.
Qed.

Lemma recentPapers_in (currentYear : Z) (papers : list paper) (p : paper) :
  In p (recentPapers currentYear papers) <->
  In p papers /\ exists y, year p = Val y /\ y <> 0 /\ cutoffYear currentYear <= y.
Proof.
  unfold recentPapers. rewrite filter_In, is_recent_spec. reflexivity.
Qed.

Lemma recentPapers_truthy (currentYear : Z) (papers : list paper) (p : paper) :
  In p (recentPapers currentYear papers) -> truthyZ (year p) = true.
Proof.
  unfold recentPapers. rewrite filter_In. unfold is_recent.
  intros [_ H]. apply andb_true_iff in H. tauto.
Qed.

Lemma has_undated_false (papers : list paper) :
  (forall p, In p papers -> truthyZ (year p) = true) -> has_undated papers = false.
Proof.
  intros H. unfold has_undated.
  destruct (existsb (fun p => negb (truthyZ (year p))) papers) eqn:E; [|reflexivity].
  apply existsb_exists in E. destruct E as [p [Hp Ht]].
  rewrite (H p Hp) in Ht. discriminate.
Qed.

Lemma has_undated_recent (currentYear : Z) (papers : list paper) :
  has_undated (sort_papers (recentPapers currentYear papers)) = false.
Proof.
  apply has_undated_false. intros p Hp.
  apply array_sort_in in Hp.
  eapply recentPapers_truthy. exact Hp.
Qed.

(** Two strictly descending lists with the same members are equal. *)
Lemma descending_unique (l1 l2 : list Z) :
  StronglySorted Z.gt l1 -> StronglySorted Z.gt l2 ->
  (forall y, In y l1 <-> In y l2) -> l1 = l2.
Proof.
  intros H1. revert l2.
  induction H1 as [|x l1 Hs1 IH Hx]; intros l2 H2 Hin.
  - destruct l2 as [|y l2]; [reflexivity|].
    exfalso. apply (Hin y). left. reflexivity.
  - destruct H2 as [|y l2 Hs2 Hy].
    + exfalso. apply (Hin x). left. reflexivity.
    + rewrite Forall_forall in Hx, Hy.
      assert (x = y).
      { destruct (proj1 (Hin x) (or_introl eq_refl)) as [E|Hxl]; [auto|].
        destruct (proj2 (Hin y) (or_introl eq_refl)) as [E|Hyl]; [auto|].
        specialize (Hx _ Hyl). specialize (Hy _ Hxl). lia. }
      subst y. f_equal. apply IH; [exact Hs2|].
      intros z. split; intros Hz.
      * destruct (proj1 (Hin z) (or_intror Hz)) as [E|H]; [|exact H].
        subst z. specialize (Hx _ Hz). lia.
      * destruct (proj2 (Hin z) (or_intror Hz)) as [E|H]; [|exact H].
        subst z. specialize (Hy _ Hz). lia.
Qed.

(** The headings of the list rendered from what the filter keeps. *)
Lemma headings_recent (currentYear : Z) (papers : list paper) (doc : document) (c : content) :
  publications_list doc = Some c ->
  exists ys : list Z,
    StronglySorted Z.gt ys /\
    (forall y, In y ys <->
       y <> 0 /\ cutoffYear currentYear <= y /\ exists p, In p papers /\ year p = Val y) /\
    headings (renderPublications (recentPapers currentYear papers) doc) = map decimal ys.
Proof.
  intros Hc. unfold renderPublications.
  destruct (headings_grouped (sort_papers (recentPapers currentYear papers)) doc c Hc)
    as [ys [Hys [Hin Hh]]].
  rewrite has_undated_recent, app_nil_r in Hh.
  exists ys. split; [exact Hys|]. split; [|exact Hh].
  intros y. rewrite Hin. split.
  - intros [p [Hp [Hy Hy0]]].
    apply array_sort_in, recentPapers_in in Hp.
    destruct Hp as [Hp [y' [Hy' [_ Hcut]]]].
    assert (y' = y) by congruence. subst y'. eauto.
  - intros [Hy0 [Hcut [p [Hp Hy]]]].
    exists p. split; [|auto].
    apply array_sort_in, recentPapers_in. eauto.
Qed.

(** C4. With a current year of at least 4, the filter keeps a publication
    exactly when its year is present and at least the current year minus
    N plus 1, for N = 4.  In 2024 the cutoff is 2021: publications of the
    years 2021, 2022, 2023 and 2020, in whatever order, are rendered
    under the headings 2023, 2022, 2021, without the one of 2020. *)
Theorem recency_filter_window (currentYear : Z) :
  RECENT_YEAR_COUNT <= currentYear ->
  RECENT_YEAR_COUNT = 4 /\
  (forall (papers : list paper) (p : paper),
     In p (recentPapers currentYear papers) <->
     In p papers /\
     exists y, year p = Val y /\ y >= currentYear - RECENT_YEAR_COUNT + 1) /\
  cutoffYear 2024 = 2021 /\
  (forall (papers : list paper) (doc : document) (c : content),
     publications_list doc = Some c ->
     Permutation (map year papers) [Val 2021; Val 2022; Val 2023; Val 2020] ->
     headings (renderPublications (recentPapers 2024 papers) doc)
       = ["2023"; "2022"; "2021"] /\
     forall p, In p (recentPapers 2024 papers) -> year p <> Val 2020).
Proof.
  intros Hcy. split; [reflexivity|]. split; [|split; [reflexivity|]].
  - intros papers p. rewrite recentPapers_in. unfold cutoffYear.
    unfold RECENT_YEAR_COUNT in *. split.
    + intros [Hp [y [Hy [_ Hc]]]]. split; [exact Hp|]. exists y. split; [exact Hy|lia].
    + intros [Hp [y [Hy Hc]]]. split; [exact Hp|]. exists y. split; [exact Hy|lia].
  - intros papers doc c Hc Hperm. split.
    + destruct (headings_recent 2024 papers doc c Hc) as [ys [Hys [Hin Hh]]].
      rewrite Hh.
      replace ys with [2023; 2022; 2021]; [reflexivity|].
      apply descending_unique; [|exact Hys|].
      * repeat constructor; lia.
      * intros y. rewrite Hin. change (cutoffYear 2024) with 2021. split.
        -- intros Hy. split; [simpl in Hy; lia|]. split; [simpl in Hy; lia|].
           assert (Hv : In (Val y) (map year papers)).
           { apply (Permutation_in _ (Permutation_sym Hperm)).
             simpl in *. intuition (subst; auto). }
           apply in_map_iff in Hv. destruct Hv as [p [Hp Hpin]]. eauto.
        -- intros [Hy0 [Hcut [p [Hp Hy]]]].
           assert (Hv : In (Val y) [Val 2021; Val 2022; Val 2023; Val 2020]).
           { apply (Permutation_in _ Hperm). rewrite <- Hy. apply in_map. exact Hp. }
           simpl in Hv. simpl.
           destruct Hv as [H|[H|[H|[H|[]]]]]; injection H as H; lia.
    + intros p Hp Hy. apply recentPapers_in in Hp.
      destruct Hp as [_ [y [Hy' [_ Hcut]]]]. change (cutoffYear 2024) with 2021 in Hcut.
      rewrite Hy in Hy'. injection Hy' as <-. lia.
Qed.

(** C10. What the filter keeps has a year other than 0, so a
    publication whose year is absent, null or 0 is removed; grouping the
    kept publications makes no [Undated] bucket, and every heading the
    whole pipeline renders is the text of such a year.  Rendering a list
    that was not filtered can show the heading [Undated]. *)
Theorem no_undated_after_filter (currentYear : Z) (papers : list paper) :
  (forall p, year p = Absent \/ year p = Null \/ year p = Val 0 ->
             ~ In p (recentPapers currentYear papers)) /\
  ~ In Undated (map fst (groupByYear (recentPapers currentYear papers))) /\
  ~ In Undated (map fst (groupByYear (sort_papers (recentPapers currentYear papers)))) /\
  (forall (net : network) (doc doc' : document) (st : load_state) (net' : network),
     fetchScholarData currentYear net doc = Some (st, doc', net') ->
     forall h, In h (headings doc') ->
       h <> "Undated" /\ exists y, h = decimal y /\ y <> 0 /\ cutoffYear currentYear <= y) /\
  (exists (unfiltered : list paper) (doc : document),
     In "Undated" (headings (renderPublications unfiltered doc))).
Proof.
  split; [|split; [|split; [|split]]].
  - intros p Hy Hp. apply recentPapers_truthy in Hp.
    destruct Hy as [Hy|[Hy|Hy]]; rewrite Hy in Hp; discriminate.
  - rewrite groupByYear_in. intros [p [Hp Hk]].
    apply recentPapers_truthy in Hp. apply year_key_undated in Hk. congruence.
  - rewrite groupByYear_in. intros [p [Hp Hk]].
    apply array_sort_in, recentPapers_truthy in Hp.
    apply year_key_undated in Hk. congruence.
  - intros net doc doc' st net' Hrun h Hh.
    assert (Hgoal : exists y, h = decimal y /\ y <> 0 /\ cutoffYear currentYear <= y).
    { destruct (publications_list doc) as [c|] eqn:Hc.
      - assert (Hcase : doc' = renderError doc \/
                        exists ps, doc' = renderPublications (recentPapers currentYear ps) doc).
        { unfold fetchScholarData in Hrun.
          destruct net as [|[|res] net0]; [discriminate| |].
          - injection Hrun as _ <- _. auto.
          - destruct (negb (ok res)); [injection Hrun as _ <- _; auto|].
            destruct (json res) as [pd|]; [|injection Hrun as _ <- _; auto].
            destruct (collect_papers net0 pd) as [[ps n]|]; [|discriminate].
            injection Hrun as _ <- _. eauto. }
        destruct Hcase as [->|[ps ->]].
        + unfold renderError in Hh. rewrite Hc in Hh. destruct Hh.
        + destruct (headings_recent currentYear ps doc c Hc) as [ys [_ [Hin Heq]]].
          rewrite Heq in Hh. apply in_map_iff in Hh. destruct Hh as [y [<- Hy]].
          apply Hin in Hy. exists y. tauto.
      - assert (doc' = doc).
        { unfold fetchScholarData, renderError, renderPublications, renderGroupedPapers in Hrun.
          rewrite Hc in Hrun.
          destruct net as [|[|res] net0]; [discriminate| |].
          - injection Hrun as _ <- _. reflexivity.
          - destruct (negb (ok res)); [injection Hrun as _ <- _; reflexivity|].
            destruct (json res) as [pd|]; [|injection Hrun as _ <- _; reflexivity].
            destruct (collect_papers net0 pd) as [[ps n]|]; [|discriminate].
            injection Hrun as _ <- _. reflexivity. }
        subst doc'. unfold headings in Hh. rewrite Hc in Hh. destruct Hh. }
    split; [|exact Hgoal].
    destruct Hgoal as [y [-> _]]. apply decimal_not_undated.
  - exists [ {| title := Absent; year := Null; venue := Absent;
                citationCount := Absent; url := Absent; authors := Absent |} ],
           {| publications_list := Some (Markup "") |}.
    simpl. left. reflexivity.
Qed.

(** ** The empty case *)

Lemma groupByYear_nil_iff (papers : list paper) :
  groupByYear papers = [] <-> papers = [].
Proof.
  split; [|intros ->; reflexivity].
  intros H.
  pose proof (group_fold_total papers []) as Ht.
  fold (groupByYear papers) in Ht. rewrite H in Ht. simpl in Ht.
  destruct papers; [reflexivity|discriminate].
Qed.

Lemma sorted_years_nil_iff (grouped : object) :
  sorted_years grouped = [] <-> grouped = [].
Proof.
  split; [|intros ->; reflexivity].
  intros H. pose proof (sorted_years_perm grouped) as Hp.
  rewrite H in Hp. apply Permutation_sym, Permutation_nil in Hp.
  destruct grouped; [reflexivity|discriminate].
Qed.

Lemma sort_papers_nil_iff (papers : list paper) :
  sort_papers papers = [] <-> papers = [].
Proof.
  split; [|intros ->; reflexivity].
  intros H. pose proof (sort_papers_perm papers) as Hp.
  rewrite H in Hp. apply Permutation_sym, Permutation_nil in Hp. exact Hp.
Qed.

Lemma renderPublications_placeholder (papers : list paper) (doc : document) (c : content) :
  publications_list doc = Some c ->
  (renderPublications papers doc = {| publications_list := Some (Markup no_results_html) |}
   <-> papers = []).
Proof.
  intros Hc. unfold renderPublications, renderGroupedPapers. rewrite Hc.
  destruct (sorted_years (groupByYear (sort_papers papers))) as [|k ks] eqn:E.
  - apply (proj1 (sorted_years_nil_iff _)) in E.
    apply (proj1 (groupByYear_nil_iff _)) in E.
    apply (proj1 (sort_papers_nil_iff _)) in E.
    split; [intros _; exact E|reflexivity].
  - split; [discriminate|].
    intros ->. discriminate.
Qed.

(** ** Fetching *)

Lemma request_failed_spec (o : outcome) :
  request_failed o = true <->
  o = NetworkFailure \/ exists res, o = Response res /\ (ok res = false \/ json res = None).
Proof.
  destruct o as [|res]; simpl.
  - split; auto.
  - rewrite orb_true_iff, negb_true_iff. split.
    + intros [H|H]; right; exists res; split; auto.
      destruct (json res); [discriminate|auto].
    + intros [H|[r [E [H|H]]]]; [discriminate| |]; injection E as <-; auto.
      rewrite H. auto.
Qed.

Lemma request_failed_page (o : outcome) :
  request_failed o = true <-> page_of o = None.
Proof.
  destruct o as [|res]; simpl; [tauto|].
  destruct (ok res), (json res); simpl; split; congruence.
Qed.

Lemma fetch_initial_failed (currentYear : Z) (o : outcome) (net : network) (doc : document) :
  request_failed o = true ->
  fetchScholarData currentYear (o :: net) doc = Some (ErrorRendered, renderError doc, net).
Proof.
  destruct o as [|res]; simpl; [reflexivity|].
  destruct (ok res); simpl; [|reflexivity].
  destruct (json res); [discriminate|reflexivity].
Qed.

Lemma fetch_initial_page (currentYear : Z) (o : outcome) (d : page) (net : network) (doc : document) :
  page_of o = Some d ->
  fetchScholarData currentYear (o :: net) doc =
  match collect_papers net d with
  | None => None
  | Some (papers, net') =>
      Some (Rendered, renderPublications (recentPapers currentYear papers) doc, net')
  end.
Proof.
  destruct o as [|res]; simpl; [discriminate|].
  destruct (ok res); simpl; [|discriminate].
  intros ->. reflexivity.
Qed.

(** The loop over pages that all carry a cursor, up to a request that
    fails: what was collected is returned. *)
Lemma fetchRemainingLoop_partial (pages : list outcome) (f : outcome) (net : network) :
  forallb continues pages = true -> request_failed f = true ->
  forall (offset : field cursor) (acc : list paper),
    truthyC offset = true ->
    fetchRemainingLoop (pages ++ f :: net)%list offset acc
    = Some ((acc ++ flat_map outcome_papers pages)%list, net).
Proof.
  intros Hpages Hf.
  induction pages as [|o pages IH]; intros offset acc Hoff; simpl.
  - rewrite Hoff, app_nil_r. simpl.
    destruct f as [|res]; [reflexivity|]. simpl in Hf.
    destruct (ok res); simpl in *; [|reflexivity].
    destruct (json res); [discriminate|reflexivity].
  - simpl in Hpages. apply andb_true_iff in Hpages. destruct Hpages as [Ho Hpages].
    rewrite Hoff. simpl.
    unfold continues in Ho. unfold outcome_papers.
    destruct o as [|res]; simpl in *; [discriminate|].
    destruct (ok res); simpl in *; [|discriminate].
    destruct (json res) as [d|]; [|discriminate].
    unfold cursor_or_null. rewrite Ho.
    rewrite (IH Hpages _ _ Ho), app_assoc. reflexivity.
Qed.

(** The loop over pages that all carry a cursor, up to a page without
    one: all pages are returned. *)
Lemma fetchRemainingLoop_complete (pages : list outcome) (last : outcome) (d : page) (net : network) :
  forallb continues pages = true ->
  page_of last = Some d -> truthyC (next d) = false ->
  forall (offset : field cursor) (acc : list paper),
    truthyC offset = true ->
    fetchRemainingLoop (pages ++ last :: net)%list offset acc
    = Some ((acc ++ flat_map outcome_papers pages ++ list_or_empty (data d))%list, net).
Proof.
  intros Hpages Hlast Hend.
  induction pages as [|o pages IH]; intros offset acc Hoff; simpl.
  - rewrite Hoff. simpl.
    destruct last as [|res]; simpl in Hlast; [discriminate|].
    destruct (ok res); simpl; [|discriminate].
    rewrite Hlast. unfold cursor_or_null. rewrite Hend.
    destruct net; reflexivity.
  - simpl in Hpages. apply andb_true_iff in Hpages. destruct Hpages as [Ho Hpages].
    rewrite Hoff. simpl.
    unfold continues in Ho. unfold outcome_papers at 1.
    destruct o as [|res]; simpl in *; [discriminate|].
    destruct (ok res); simpl in *; [|discriminate].
    destruct (json res) as [d'|]; [|discriminate].
    unfold cursor_or_null. rewrite Ho.
    rewrite (IH Hpages _ _ Ho), <- !app_assoc. reflexivity.
Qed.

(** C8. When the list is on the page and no publication passes the
    filter, the renderer writes the one placeholder paragraph and no year
    list; the run ends in the rendered state, not in the error state, and
    the placeholder is not the error fallback.  The placeholder appears
    for the empty list only.  The placeholder is a single node: one
    paragraph, centred, holding the sentence that no publications were
    found, and with it the list shows neither a year heading nor a
    publication. *)
Theorem empty_result_placeholder (currentYear : Z) (doc : document) (c : content) :
  publications_list doc = Some c ->
  (forall papers : list paper,
     recentPapers currentYear papers = [] ->
     renderPublications (recentPapers currentYear papers) doc
     = {| publications_list := Some (Markup no_results_html) |}) /\
  (forall (o : outcome) (d : page) (net net' : network) (papers : list paper),
     page_of o = Some d ->
     collect_papers net d = Some (papers, net') ->
     recentPapers currentYear papers = [] ->
     fetchScholarData currentYear (o :: net) doc
     = Some (Rendered, {| publications_list := Some (Markup no_results_html) |}, net')) /\
  (forall papers : list paper,
     renderPublications papers doc = {| publications_list := Some (Markup no_results_html) |}
     <-> papers = []) /\
  no_results_html <> error_html /\
  renderError doc <> {| publications_list := Some (Markup no_results_html) |} /\
  tokenize no_results_html
  = (StartTag "p" [("style", "text-align:center; color: var(--text-light); padding: 32px 0;")]
     :: map Character (list_ascii_of_string "No publications found matching your search.")
     ++ [EndTag "p"])%list /\
  headings {| publications_list := Some (Markup no_results_html) |} = [] /\
  items {| publications_list := Some (Markup no_results_html) |} = [].
Proof.
  intros Hc.
  assert (Hdiff : no_results_html <> error_html).
  { intros H. vm_compute in H. discriminate H. }
  split; [|split; [|split; [|split; [|split; [|split; [vm_compute; reflexivity|split; reflexivity]]]]]].
  - intros papers ->. apply (renderPublications_placeholder [] doc c Hc). reflexivity.
  - intros o d net net' papers Ho Hcol Hempty.
    rewrite (fetch_initial_page _ _ _ _ _ Ho), Hcol, Hempty.
    do 2 f_equal. f_equal.
    apply (renderPublications_placeholder [] doc c Hc). reflexivity.
  - intros papers. apply (renderPublications_placeholder papers doc c Hc).
  - exact Hdiff.
  - unfold renderError. rewrite Hc. intros H.
    apply Hdiff. symmetry.
    exact (f_equal (fun d => match publications_list d with
                             | Some (Markup h) => h
                             | _ => ""
                             end) H).
Qed.

(** On responses of the expected structure already, a first request that
    fails on the network ends the run in the error state, with no
    response at all, neither a status nor a body. *)
Lemma initial_network_failure_counterexample :
  fetchScholarData 2024 [NetworkFailure] page_with_list
  = Some (ErrorRendered, {| publications_list := Some (Markup error_html) |}, [])
  /\ ~ (exists res, NetworkFailure = Response res /\ (ok res = false \/ json res = None))
  /\ ~ fails_only_on_status_or_body.
Proof.
  split; [reflexivity|].
  assert (H : ~ (exists res, NetworkFailure = Response res /\ (ok res = false \/ json res = None))).
  { intros [res [E _]]. discriminate E. }
  split; [exact H|].
  intros Hclaim. apply H.
  apply (Hclaim 2024 NetworkFailure [] page_with_list ErrorRendered
           {| publications_list := Some (Markup error_html) |} []); reflexivity.
Qed.

(** C3. When the first page and the follow-up pages received so far
    each carry a cursor and the next follow-up request fails, on the
    network, by a status outside 200-299 or by a body that does not parse,
    the loop stops and returns the publications of the follow-up pages
    received; the run ends in the rendered state with the publications of
    all pages received.  In particular a first page of two publications
    with cursor X, followed by a failing request, renders those two. *)
Theorem pagination_failure_keeps_partial
    (currentYear : Z) (first : outcome) (pages : list outcome) (f : outcome)
    (net : network) (doc : document) :
  continues first = true ->
  forallb continues pages = true ->
  (f = NetworkFailure \/
   exists res, f = Response res /\ (ok res = false \/ json res = None)) ->
  (forall (offset : field cursor),
     truthyC offset = true ->
     fetchRemainingPapers (pages ++ f :: net)%list offset
     = Some (flat_map outcome_papers pages, net)) /\
  fetchScholarData currentYear (first :: pages ++ f :: net)%list doc
  = Some (Rendered,
          renderPublications
            (recentPapers currentYear
               (outcome_papers first ++ flat_map outcome_papers pages)%list) doc,
          net) /\
  (forall (r1 r2 : paper) (st : Z),
     200 <= st <= 299 ->
     fetchScholarData currentYear
       (Response {| status := st;
                    json := Some {| data := Val [r1; r2]; next := Val (CStr "X") |} |}
        :: f :: net) doc
     = Some (Rendered, renderPublications (recentPapers currentYear [r1; r2]) doc, net)).
Proof.
  intros Hfirst Hpages Hf. apply request_failed_spec in Hf.
  assert (Hloop : forall offset, truthyC offset = true ->
            fetchRemainingPapers (pages ++ f :: net)%list offset
            = Some (flat_map outcome_papers pages, net)).
  { intros offset Hoff. unfold fetchRemainingPapers.
    apply (fetchRemainingLoop_partial pages f net Hpages Hf offset [] Hoff). }
  split; [exact Hloop|]. split.
  - unfold continues in Hfirst. unfold outcome_papers at 1.
    destruct (page_of first) as [d|] eqn:Hd; [|discriminate].
    rewrite (fetch_initial_page _ _ _ _ _ Hd).
    unfold collect_papers. rewrite Hfirst, (Hloop _ Hfirst). reflexivity.
  - intros r1 r2 st Hst.
    set (d := {| data := Val [r1; r2]; next := Val (CStr "X") |}).
    assert (Hd : page_of (Response {| status := st; json := Some d |}) = Some d).
    { simpl. unfold ok. simpl.
      replace (200 <=? st) with true by (symmetry; apply Z.leb_le; lia).
      replace (st <=? 299) with true by (symmetry; apply Z.leb_le; lia).
      reflexivity. }
    rewrite (fetch_initial_page _ _ _ _ _ Hd).
    unfold collect_papers, fetchRemainingPapers.
    change (truthyC (next d)) with true. cbv iota.
    change (f :: net) with ([] ++ f :: net)%list.
    rewrite (fetchRemainingLoop_partial [] f net eq_refl Hf (next d) [] eq_refl).
    reflexivity.
Qed.

(** ** The markup of one publication *)

Lemma string_app_assoc (a b c : string) : (a ++ b) ++ c = a ++ b ++ c.
Proof.
  induction a as [|x a IH]; simpl; [reflexivity|].
  rewrite IH. reflexivity.
Qed.

Lemma str_or_val (f : field string) (d u : string) :
  f = Val u -> u <> "" -> str_or f d = u.
Proof.
  intros -> Hu. destruct u; [contradiction|reflexivity].
Qed.

Lemma str_or_default (f : field string) (d : string) :
  f = Absent \/ f = Null \/ f = Val "" -> str_or f d = d.
Proof. intros [->|[->| ->]]; reflexivity. Qed.

Lemma paper_markup_href (url title authors venue : string) :
  exists rest,
    paper_markup url title authors venue = href_open ++ url ++ dq ++ " class=" ++ rest.
Proof.
  eexists. unfold paper_markup, href_open, quoted.
  rewrite !string_app_assoc. reflexivity.
Qed.

(** C9, as stated, fails: a link target that is present as the empty
    string is not written out as it is but replaced by [#]. *)
Lemma empty_url_counterexample :
  url empty_url_paper = Val "" /\
  paper_href empty_url_paper = "#" /\
  paper_href empty_url_paper <> "".
Proof.
  split; [reflexivity|]. split; [reflexivity|]. discriminate.
Qed.

(** C9, amended.  The link target is the url of the publication as it
    is, without escaping, when the url is a non-empty string, and [#]
    when the url is absent, null or empty; it stands between the quotes of
    the href attribute.  The title, the venue and every author name pass
    through [escapeHtml]. *)
Theorem href_is_url_unescaped (p : paper) :
  (forall u, url p = Val u -> u <> "" ->
             paper_href p = u /\ (escapeHtml u <> u -> paper_href p <> escapeHtml u)) /\
  (url p = Absent \/ url p = Null \/ url p = Val "" -> paper_href p = "#") /\
  (exists rest,
     markup_of (createPaperElement p)
     = href_open ++ paper_href p ++ dq ++ " class=" ++ rest) /\
  createPaperElement p
  = ElemHtml "div" "publication-item"
      (paper_markup (paper_href p)
         (escapeHtml (str_or (title p) "Untitled"))
         (concat ", " (map format_author (list_or_empty (authors p))))
         (escapeHtml (str_or (venue p) ""))) /\
  (forall a : author,
     format_author a = escapeHtml (str_or (name a) "") \/
     format_author a = "<strong>" ++ escapeHtml (str_or (name a) "") ++ "</strong>").
Proof.
  split; [|split; [|split; [|split]]].
  - intros u Hu Hne. unfold paper_href. rewrite (str_or_val _ _ _ Hu Hne).
    split; [reflexivity|]. intros H E. apply H. symmetry. exact E.
  - intros H. unfold paper_href. apply str_or_default, H.
  - unfold createPaperElement, markup_of. apply paper_markup_href.
  - reflexivity.
  - intros a. unfold format_author.
    destruct (regex_test_ci "razaviyayn" (escapeHtml (str_or (name a) ""))); auto.
Qed.

(** C1 at the failing input.  The url of a publication is written
    between the quotes of the href attribute as it is: a url that begins
    with a quote and [>] ends the attribute and the tag, and the markup
    that follows it in the url is read as an element of its own, here an
    image with an error handler, which the template does not contain. *)
Theorem url_injects_markup :
  url injected_paper = Val (dq ++ "><img src=x onerror=alert(1)>") /\
  tags (markup_of (createPaperElement injected_paper))
  = [StartTag "div" [("class", "pub-main")];
     StartTag "a" [("href", "")];
     StartTag "img" [("src", "x"); ("onerror", "alert(1)")];
     EndTag "a";
     EndTag "div"] /\
  template_tags injected_paper
  = [StartTag "div" [("class", "pub-main")];
     anchor_tag (dq ++ "><img src=x onerror=alert(1)>");
     EndTag "a";
     EndTag "div"].
Proof. repeat split; vm_compute; reflexivity. Qed.

(** ** Escaped text and the tokenizer *)

Lemma run_app (st : tokenizer_state) (a b : string) :
  run st (a ++ b) =
  let (st1, o1) := run st a in
  let (st2, o2) := run st1 b in (st2, (o1 ++ o2)%list).
Proof.
  revert st. induction a as [|c a IH]; intros st; simpl.
  - destruct (run st b). reflexivity.
  - destruct (step st c) as [st' out]. rewrite IH.
    destruct (run st' a) as [st1 o1]. destruct (run st1 b) as [st2 o2].
    rewrite app_assoc. reflexivity.
Qed.

Lemma tokens_from_run (st : tokenizer_state) (markup : string) :
  tokens_from st markup = (snd (run st markup) ++ at_end (fst (run st markup)))%list.
Proof.
  revert st. induction markup as [|c markup IH]; intros st; simpl; [reflexivity|].
  destruct (step st c) as [st' out]. rewrite IH.
  destruct (run st' markup) as [st1 o1]. simpl. rewrite app_assoc. reflexivity.
Qed.

Lemma data_piece_tags (markup : string) (ts : list token) :
  data_piece markup ts -> tags markup = ts.
Proof.
  intros [out [Hrun Hts]]. unfold tags, tokenize.
  rewrite tokens_from_run, Hrun. simpl. rewrite app_nil_r. exact Hts.
Qed.

Lemma data_piece_app (a b : string) (ta tb : list token) :
  data_piece a ta -> data_piece b tb -> data_piece (a ++ b) (ta ++ tb)%list.
Proof.
  intros [oa [Ha Hta]] [ob [Hb Htb]].
  exists (oa ++ ob)%list. rewrite run_app, Ha, Hb. split; [reflexivity|].
  rewrite filter_app, Hta, Htb. reflexivity.
Qed.

Lemma data_piece_empty : data_piece "" [].
Proof. exists []. split; reflexivity. Qed.

(** Text without [<] is read as characters only. *)
Lemma run_data_text (s : string) :
  lacks "<" s = true ->
  run DataState s = (DataState, map Character (list_ascii_of_string s)).
Proof.
  induction s as [|c s IH]; simpl; intros H; [reflexivity|].
  apply andb_true_iff in H. destruct H as [Hc Hs].
  unfold step_data. apply negb_true_iff in Hc. rewrite Hc, (IH Hs). reflexivity.
Qed.

Lemma data_piece_text (s : string) : lacks "<" s = true -> data_piece s [].
Proof.
  intros H. eexists. split; [apply run_data_text, H|].
  induction (list_ascii_of_string s) as [|c l IH]; simpl; auto.
Qed.

Lemma lacks_app (c : ascii) (a b : string) :
  lacks c (a ++ b) = lacks c a && lacks c b.
Proof.
  induction a as [|x a IH]; simpl; [reflexivity|].
  rewrite IH, andb_assoc. reflexivity.
Qed.

(** [escapeHtml] leaves neither [<] nor [>] in its result. *)
Lemma escapeHtml_lacks_lt (s : string) : lacks "<" (escapeHtml s) = true.
Proof.
  induction s as [|c s IH]; simpl; [reflexivity|].
  rewrite lacks_app, IH, andb_true_r. unfold escape_char.
  destruct (Ascii.eqb c "&"); [reflexivity|].
  destruct (Ascii.eqb c "160"); [reflexivity|].
  destruct (Ascii.eqb c "<") eqn:E; [reflexivity|].
  destruct (Ascii.eqb c ">"); [reflexivity|].
  simpl. rewrite E. reflexivity.
Qed.

Lemma escapeHtml_lacks_gt (s : string) : lacks ">" (escapeHtml s) = true.
Proof.
  induction s as [|c s IH]; simpl; [reflexivity|].
  rewrite lacks_app, IH, andb_true_r. unfold escape_char.
  destruct (Ascii.eqb c "&"); [reflexivity|].
  destruct (Ascii.eqb c "160"); [reflexivity|].
  destruct (Ascii.eqb c "<"); [reflexivity|].
  destruct (Ascii.eqb c ">") eqn:E; [reflexivity|].
  simpl. rewrite E. reflexivity.
Qed.

Lemma data_piece_escaped (s : string) : data_piece (escapeHtml s) [].
Proof. apply data_piece_text, escapeHtml_lacks_lt. Qed.

Lemma string_app_nil_r (s : string) : s ++ "" = s.
Proof. induction s as [|c s IH]; simpl; [reflexivity|]. rewrite IH. reflexivity. Qed.

(** A value without a double quote stays inside the quotes. *)
Lemma run_double_quoted (t : tag) (n v u : string) :
  lacks "034" u = true ->
  run (AttributeValueDouble t n v) u = (AttributeValueDouble t n (v ++ u), []).
Proof.
  revert v. induction u as [|c u IH]; intros v H; simpl.
  - rewrite string_app_nil_r. reflexivity.
  - simpl in H. apply andb_true_iff in H. destruct H as [Hc Hu].
    apply negb_true_iff in Hc. rewrite Hc, (IH _ Hu).
    unfold snoc. rewrite string_app_assoc. reflexivity.
Qed.

Ltac constant_piece := eexists; split; vm_compute; reflexivity.

(** The opening tag of the link, for a target without a double quote. *)
Lemma data_piece_anchor (href : string) :
  lacks "034" href = true ->
  data_piece ("<a href=" ++ quoted href ++ " class=" ++ quoted "pub-title"
              ++ " target=" ++ quoted "_blank" ++ " rel=" ++ quoted "noopener" ++ ">")
             [anchor_tag href].
Proof.
  intros H.
  set (rest := " class=" ++ quoted "pub-title" ++ " target=" ++ quoted "_blank"
               ++ " rel=" ++ quoted "noopener" ++ ">").
  replace ("<a href=" ++ quoted href ++ rest)
    with (("<a href=" ++ dq) ++ href ++ dq ++ rest)
    by (unfold quoted; rewrite !string_app_assoc; reflexivity).
  eexists. rewrite run_app.
  change (run DataState ("<a href=" ++ dq))
    with (AttributeValueDouble (name_char (new_tag false) "a") "href" "", @nil token).
  cbv iota. rewrite run_app, (run_double_quoted _ _ _ _ H).
  cbv iota. split; vm_compute; reflexivity.
Qed.

Lemma data_piece_author (a : author) : data_piece (format_author a) (author_tags a).
Proof.
  unfold format_author, author_tags.
  destruct (regex_test_ci "razaviyayn" (escapeHtml (str_or (name a) ""))).
  - apply (data_piece_app "<strong>" _ [StartTag "strong" []] [EndTag "strong"]);
      [constant_piece|].
    apply (data_piece_app _ "</strong>" [] [EndTag "strong"]);
      [apply data_piece_escaped|constant_piece].
  - apply data_piece_escaped.
Qed.

Lemma data_piece_authors (l : list author) :
  data_piece (concat ", " (map format_author l)) (flat_map author_tags l).
Proof.
  induction l as [|a l IH]; [apply data_piece_empty|].
  destruct l as [|b l].
  - simpl. rewrite app_nil_r. apply data_piece_author.
  - change (concat ", " (map format_author (a :: b :: l)))
      with (format_author a ++ ", " ++ concat ", " (map format_author (b :: l))).
    change (flat_map author_tags (a :: b :: l))
      with (author_tags a ++ [] ++ flat_map author_tags (b :: l))%list.
    apply data_piece_app; [apply data_piece_author|].
    apply data_piece_app; [constant_piece|exact IH].
Qed.

(** The tags of the markup of a publication whose link target has no
    double quote: those of the template, whatever the title, the venue
    and the author names contain. *)
Lemma paper_markup_tags (href title authors venue : string) (ta : list token) :
  lacks "034" href = true ->
  data_piece title [] -> data_piece authors ta -> data_piece venue [] ->
  data_piece (paper_markup href title authors venue)
    ([StartTag "div" [("class", "pub-main")]; anchor_tag href; EndTag "a"]
     ++ (if nonempty authors
         then StartTag "p" [("class", "pub-authors")] :: ta ++ [EndTag "p"]
         else [])
     ++ (if nonempty venue
         then [StartTag "p" [("class", "pub-venue")]; EndTag "p"]
         else [])
     ++ [EndTag "div"])%list.
Proof.
  intros Hh Ht Ha Hv.
  set (authors_part := if nonempty authors
         then "<p class=" ++ quoted "pub-authors" ++ ">" ++ authors ++ "</p>" else "").
  set (venue_part := if nonempty venue
         then "<p class=" ++ quoted "pub-venue" ++ ">" ++ venue ++ "</p>" else "").
  replace (paper_markup href title authors venue)
    with ((nl ++ indent 8 ++ "<div class=" ++ quoted "pub-main" ++ ">" ++ nl ++ indent 12)
          ++ ("<a href=" ++ quoted href ++ " class=" ++ quoted "pub-title"
              ++ " target=" ++ quoted "_blank" ++ " rel=" ++ quoted "noopener" ++ ">")
          ++ title
          ++ ("</a>" ++ nl ++ indent 12)
          ++ authors_part
          ++ (nl ++ indent 12)
          ++ venue_part
          ++ (nl ++ indent 8 ++ "</div>" ++ nl ++ indent 4))
    by (unfold paper_markup, authors_part, venue_part;
        rewrite !string_app_assoc; reflexivity).
  apply (data_piece_app _ _ [StartTag "div" [("class", "pub-main")]]); [constant_piece|].
  apply (data_piece_app _ _ [anchor_tag href]); [apply data_piece_anchor, Hh|].
  apply (data_piece_app _ _ []); [exact Ht|].
  apply (data_piece_app _ _ [EndTag "a"]); [constant_piece|].
  apply data_piece_app.
  { unfold authors_part. destruct (nonempty authors); [|apply data_piece_empty].
    replace ("<p class=" ++ quoted "pub-authors" ++ ">" ++ authors ++ "</p>")
      with (("<p class=" ++ quoted "pub-authors" ++ ">") ++ authors ++ "</p>")
      by (rewrite !string_app_assoc; reflexivity).
    apply (data_piece_app _ _ [StartTag "p" [("class", "pub-authors")]]); [constant_piece|].
    apply data_piece_app; [exact Ha|constant_piece]. }
  apply (data_piece_app _ _ []); [constant_piece|].
  apply data_piece_app; [|constant_piece].
  unfold venue_part. destruct (nonempty venue); [|apply data_piece_empty].
  replace ("<p class=" ++ quoted "pub-venue" ++ ">" ++ venue ++ "</p>")
    with (("<p class=" ++ quoted "pub-venue" ++ ">") ++ venue ++ "</p>")
    by (rewrite !string_app_assoc; reflexivity).
  apply (data_piece_app _ _ [StartTag "p" [("class", "pub-venue")]]); [constant_piece|].
  apply (data_piece_app _ _ [] [EndTag "p"]); [exact Hv|constant_piece].
Qed.

(** Whatever the title, the venue and the author names contain, they
    contribute text only: the tags of the markup are those of the
    template, as long as the link target has no double quote. *)
Lemma createPaperElement_tags (p : paper) :
  lacks "034" (paper_href p) = true ->
  tags (markup_of (createPaperElement p)) = template_tags p.
Proof.
  intros H. apply data_piece_tags.
  unfold createPaperElement, markup_of, template_tags.
  apply paper_markup_tags.
  - exact H.
  - apply data_piece_escaped.
  - apply data_piece_authors.
  - apply data_piece_escaped.
Qed.

(** A title that spells a script element is rendered as text. *)
Lemma script_title_is_text (p : paper) :
  title p = Val "<script>x</script>" ->
  str_or (title p) "Untitled" = "<script>x</script>" /\
  escapeHtml (str_or (title p) "Untitled") = "&lt;script&gt;x&lt;/script&gt;" /\
  (lacks "034" (paper_href p) = true ->
   ~ In (StartTag "script" []) (tags (markup_of (createPaperElement p)))).
Proof.
  intros Ht. rewrite Ht. split; [reflexivity|]. split; [reflexivity|].
  intros H. rewrite (createPaperElement_tags p H). unfold template_tags.
  rewrite !in_app_iff. intros [Hin|[Hin|[Hin|Hin]]].
  - simpl in Hin. unfold anchor_tag in Hin.
    destruct Hin as [E|[E|[E|[]]]]; discriminate E.
  - destruct (nonempty (format_authors p)); [|destruct Hin].
    destruct Hin as [E|Hin]; [discriminate E|].
    apply in_app_iff in Hin. destruct Hin as [Hin|[E|[]]]; [|discriminate E].
    apply in_flat_map in Hin. destruct Hin as [a [_ Hin]].
    unfold author_tags in Hin.
    destruct (regex_test_ci "razaviyayn" (escapeHtml (str_or (name a) "")));
      [|destruct Hin].
    destruct Hin as [E|[E|[]]]; discriminate E.
  - destruct (nonempty (escapeHtml (str_or (venue p) ""))); [|destruct Hin].
    destruct Hin as [E|[E|[]]]; discriminate E.
  - destruct Hin as [E|[]]. discriminate E.
Qed.

(** ** The theorems at sample inputs *)

Lemma sort_order_year_then_citations_witness :
  nth_error (sort_papers [paper_2021; paper_2023]) 0 = Some paper_2023 /\
  nth_error (sort_papers [paper_2021; paper_2023]) 1 = Some paper_2021 /\
  (0 < 1)%nat.
Proof.
  split; [reflexivity|]. split; [reflexivity|].
  apply (proj1 (proj2 (sort_order_year_then_citations [paper_2021; paper_2023])
                  0%nat 1%nat paper_2023 paper_2021 eq_refl eq_refl)).
  reflexivity.
Defined.


Lemma recency_filter_window_witness :
  RECENT_YEAR_COUNT <= 2024 /\
  headings (renderPublications
              (recentPapers 2024 [paper_2021; paper_2022; paper_2023; paper_2020])
              page_with_list)
  = ["2023"; "2022"; "2021"].
Proof.
  assert (H : RECENT_YEAR_COUNT <= 2024) by (unfold RECENT_YEAR_COUNT; lia).
  split; [exact H|].
  apply (proj2 (proj2 (proj2 (recency_filter_window 2024 H)))
           [paper_2021; paper_2022; paper_2023; paper_2020]
           page_with_list (Markup "") eq_refl).
  apply Permutation_refl.
Defined.

Lemma empty_result_placeholder_witness :
  fetchScholarData 2024 [old_page] page_with_list
  = Some (Rendered, {| publications_list := Some (Markup no_results_html) |}, []) /\
  tokenize no_results_html
  = (StartTag "p" [("style", "text-align:center; color: var(--text-light); padding: 32px 0;")]
     :: map Character (list_ascii_of_string "No publications found matching your search.")
     ++ [EndTag "p"])%list.
Proof.
  split.
  - apply (proj1 (proj2 (empty_result_placeholder 2024 page_with_list (Markup "") eq_refl))
             old_page {| data := Val [paper_2020]; next := Null |} [] [] [paper_2020]);
      reflexivity.
  - exact (proj1 (proj2 (proj2 (proj2 (proj2 (proj2
             (empty_result_placeholder 2024 page_with_list (Markup "") eq_refl))))))).
Defined.

Lemma pagination_failure_keeps_partial_witness :
  fetchScholarData 2024 [first_page; NetworkFailure] page_with_list
  = Some (Rendered,
          renderPublications (recentPapers 2024 [paper_2021; paper_2023]) page_with_list,
          []).
Proof.
  apply (proj1 (proj2 (pagination_failure_keeps_partial
                         2024 first_page [] NetworkFailure [] page_with_list
                         eq_refl eq_refl (or_introl eq_refl)))).
Defined.

Lemma href_is_url_unescaped_witness :
  paper_href linked_paper = "https://example.org/?a=1&b=2".
Proof.
  assert (Hne : "https://example.org/?a=1&b=2" <> "") by discriminate.
  exact (proj1 (proj1 (href_is_url_unescaped linked_paper)
                  "https://example.org/?a=1&b=2" eq_refl Hne)).
Defined.

Lemma no_undated_after_filter_witness :
  headings (renderPublications
              (recentPapers 2024 [paper_undated; paper_2023]) page_with_list)
  = ["2023"] /\
  "2023" <> "Undated".
Proof.
  split; [reflexivity|].
  apply (proj1 (proj2 (proj2 (proj2 (no_undated_after_filter 2024 [])))))
    with (net := [Response {| status := 200;
                              json := Some {| data := Val [paper_undated; paper_2023];
                                              next := Null |} |}])
         (doc := page_with_list) (st := Rendered) (net' := [])
         (doc' := renderPublications
                    (recentPapers 2024 [paper_undated; paper_2023]) page_with_list);
    [reflexivity|left; reflexivity].
Defined.

(** * Further properties *)

(** ** Class lists *)

Lemma contains_app (a b : classList) (u : string) :
  contains (a ++ b)%list u = contains a u || contains b u.
Proof. unfold contains. apply existsb_app. Qed.

Lemma contains_add (t u : string) (cl : classList) :
  contains (class_add t cl) u = contains cl u || String.eqb u t.
Proof.
  unfold class_add. destruct (contains cl t) eqn:E.
  - destruct (String.eqb_spec u t) as [->|_].
    + rewrite E. reflexivity.
    + rewrite orb_false_r. reflexivity.
  - rewrite contains_app. simpl. rewrite orb_false_r. reflexivity.
Qed.

Lemma contains_remove (t u : string) (cl : classList) :
  contains (class_remove t cl) u = contains cl u && negb (String.eqb u t).
Proof.
  unfold class_remove, contains.
  induction cl as [|x cl IH]; simpl; [reflexivity|].
  destruct (String.eqb_spec x t) as [->|Hx]; simpl.
  - rewrite IH. destruct (String.eqb_spec u t); simpl.
    + rewrite andb_false_r. reflexivity.
    + reflexivity.
  - rewrite IH. destruct (String.eqb_spec u x) as [->|_]; simpl; [|reflexivity].
    destruct (String.eqb_spec x t); [contradiction|reflexivity].
Qed.

Lemma contains_force (t u : string) (b : bool) (cl : classList) :
  contains (class_force t b cl) u = if String.eqb u t then b else contains cl u.
Proof.
  unfold class_force. destruct b.
  - rewrite contains_add. destruct (String.eqb u t); [apply orb_true_r|apply orb_false_r].
  - rewrite contains_remove. destruct (String.eqb u t); [apply andb_false_r|apply andb_true_r].
Qed.

Lemma contains_toggle (t u : string) (cl : classList) :
  contains (class_toggle t cl) u
  = if String.eqb u t then negb (contains cl t) else contains cl u.
Proof.
  unfold class_toggle. destruct (contains cl t) eqn:E.
  - rewrite contains_remove. destruct (String.eqb_spec u t) as [->|_]; simpl.
    + apply andb_false_r.
    + apply andb_true_r.
  - rewrite contains_add. destruct (String.eqb_spec u t) as [->|_]; simpl.
    + apply orb_true_r.
    + apply orb_false_r.
Qed.

Lemma class_remove_absent (t : string) (cl : classList) :
  contains cl t = false -> class_remove t cl = cl.
Proof.
  unfold class_remove, contains.
  induction cl as [|x cl IH]; simpl; intros H; [reflexivity|].
  apply orb_false_iff in H. destruct H as [Hx H].
  rewrite String.eqb_sym, Hx. simpl. rewrite (IH H). reflexivity.
Qed.

Lemma class_force_idem (t : string) (b : bool) (cl : classList) :
  class_force t b (class_force t b cl) = class_force t b cl.
Proof.
  destruct b; simpl.
  - unfold class_add at 1. rewrite contains_add, String.eqb_refl, orb_true_r. reflexivity.
  - apply class_remove_absent. rewrite contains_remove, String.eqb_refl. apply andb_false_r.
Qed.

(** ** The scroll shadow *)

Lemma past_threshold_spec (y : Q) : past_threshold y = true <-> (10 # 1 < y)%Q.
Proof.
  unfold past_threshold. rewrite negb_true_iff. split.
  - intros H. apply Qnot_le_lt. intros Hle.
    apply Qle_bool_iff in Hle. congruence.
  - intros H. destruct (Qle_bool y (10 # 1)) eqn:E; [|reflexivity].
    apply Qle_bool_iff in E. exfalso. exact (Qlt_not_le _ _ H E).
Qed.

(** X1. After a scroll event the navigation bar carries the class
    [scrolled] exactly when the scroll offset is above 10; its other
    classes are as before. *)
Theorem scroll_shadow_threshold (p : nav_page) (y : Q) (cl : classList) :
  navbar p = Some cl ->
  exists cl',
    navbar (handle (initNavigation p) (Scroll y) p) = Some cl' /\
    (contains cl' "scrolled" = true <-> (10 # 1 < y)%Q) /\
    (forall t, t <> "scrolled" -> contains cl' t = contains cl t).
Proof.
  intros Hn. exists (class_force "scrolled" (past_threshold y) cl).
  split; [|split].
  - simpl. rewrite Hn. reflexivity.
  - rewrite contains_force. simpl. apply past_threshold_spec.
  - intros t Ht. rewrite contains_force.
    destruct (String.eqb_spec t "scrolled"); [contradiction|reflexivity].
Qed.

(** ** The mobile menu *)

Lemma is_active_toggle (o : option classList) :
  is_active (on_classes (class_toggle "active") o) = if is_some o then negb (is_active o) else false.
Proof.
  destruct o as [cl|]; simpl; [|reflexivity].
  rewrite contains_toggle, String.eqb_refl. reflexivity.
Qed.

Lemma is_active_remove (o : option classList) :
  is_active (on_classes (class_remove "active") o) = false.
Proof.
  destruct o as [cl|]; simpl; [|reflexivity].
  rewrite contains_remove, String.eqb_refl. apply andb_false_r.
Qed.

Lemma is_some_on_classes (f : classList -> classList) (o : option classList) :
  is_some (on_classes f o) = is_some o.
Proof. destruct o; reflexivity. Qed.

Lemma open_after_app (start : bool) (a b : list nav_event) :
  open_after start (a ++ b) = open_after (open_after start a) b.
Proof.
  revert start. induction a as [|e a IH]; intros start; simpl; [reflexivity|].
  destruct e; apply IH.
Qed.

Lemma handle_menu (l : listeners) (e : nav_event) (q : nav_page) :
  mobile_menu l = true ->
  is_some (navToggle q) = true -> is_some (navLinks q) = true ->
  is_active (navLinks (handle l e q)) = open_after (is_active (navLinks q)) [e] /\
  is_active (navToggle (handle l e q)) = open_after (is_active (navToggle q)) [e] /\
  is_some (navToggle (handle l e q)) = true /\
  is_some (navLinks (handle l e q)) = true.
Proof.
  intros Hl Ht Hk. destruct e as [y| |]; simpl; rewrite ?Hl; simpl;
    rewrite ?is_some_on_classes, ?is_active_toggle, ?is_active_remove, ?Ht, ?Hk;
    auto.
Qed.

Lemma menu_fold (l : listeners) (events : list nav_event) :
  mobile_menu l = true ->
  forall q : nav_page,
    is_some (navToggle q) = true -> is_some (navLinks q) = true ->
    is_active (navLinks (fold_left (fun q e => handle l e q) events q))
    = open_after (is_active (navLinks q)) events /\
    is_active (navToggle (fold_left (fun q e => handle l e q) events q))
    = open_after (is_active (navToggle q)) events.
Proof.
  intros Hl. induction events as [|e events IH]; intros q Ht Hk; [simpl; auto|].
  destruct (handle_menu l e q Hl Ht Hk) as [H1 [H2 [H3 H4]]].
  destruct (IH (handle l e q) H3 H4) as [H5 H6].
  change (fold_left (fun q e => handle l e q) (e :: events) q)
    with (fold_left (fun q e => handle l e q) events (handle l e q)).
  rewrite H5, H6, H1, H2.
  change (e :: events) with ([e] ++ events)%list.
  rewrite !open_after_app. auto.
Qed.

Lemma initNavigation_menu (p : nav_page) (tcl lcl : classList) :
  navToggle p = Some tcl -> navLinks p = Some lcl ->
  mobile_menu (initNavigation p) = true.
Proof. intros Ht Hk. simpl. rewrite Ht, Hk. reflexivity. Qed.

(** X2. On a page with the menu button and the link list, the class
    [active] of each of the two follows the clicks alone: a click on the
    button flips it, a click on a link removes it, scrolling leaves it. *)
Theorem menu_follows_clicks
    (p : nav_page) (tcl lcl : classList) (events : list nav_event) :
  navToggle p = Some tcl -> navLinks p = Some lcl ->
  is_active (navLinks (after_events p events))
  = open_after (contains lcl "active") events /\
  is_active (navToggle (after_events p events))
  = open_after (contains tcl "active") events.
Proof.
  intros Ht Hk. unfold after_events.
  destruct (menu_fold (initNavigation p) events (initNavigation_menu p tcl lcl Ht Hk) p)
    as [H1 H2]; try (rewrite ?Ht, ?Hk; reflexivity).
  rewrite H1, H2, Ht, Hk. auto.
Qed.

(** X3. When the button and the link list start out alike, both with
    the class [active] or both without, they are alike after any events;
    after a click on a link neither has it, and two clicks on the button
    in a row leave both as they were. *)
Theorem menu_stays_in_step
    (p : nav_page) (tcl lcl : classList) (events : list nav_event) :
  navToggle p = Some tcl -> navLinks p = Some lcl ->
  (contains tcl "active" = contains lcl "active" ->
   is_active (navToggle (after_events p events))
   = is_active (navLinks (after_events p events))) /\
  is_active (navLinks (after_events p (events ++ [LinkClick]))) = false /\
  is_active (navToggle (after_events p (events ++ [LinkClick]))) = false /\
  is_active (navLinks (after_events p (events ++ [ToggleClick; ToggleClick])))
  = is_active (navLinks (after_events p events)) /\
  is_active (navToggle (after_events p (events ++ [ToggleClick; ToggleClick])))
  = is_active (navToggle (after_events p events)).
Proof.
  intros Ht Hk.
  assert (H : forall es,
            is_active (navLinks (after_events p es)) = open_after (contains lcl "active") es /\
            is_active (navToggle (after_events p es)) = open_after (contains tcl "active") es).
  { intros es. unfold after_events.
    destruct (menu_fold (initNavigation p) es (initNavigation_menu p tcl lcl Ht Hk) p)
      as [H1 H2]; try (rewrite ?Ht, ?Hk; reflexivity).
    rewrite H1, H2, Ht, Hk. auto. }
  split; [|split; [|split; [|split]]].
  - intros E. rewrite (proj1 (H events)), (proj2 (H events)), E. reflexivity.
  - rewrite (proj1 (H _)), open_after_app. reflexivity.
  - rewrite (proj2 (H _)), open_after_app. reflexivity.
  - rewrite (proj1 (H _)), (proj1 (H events)), open_after_app. simpl.
    rewrite negb_involutive. reflexivity.
  - rewrite (proj2 (H _)), (proj2 (H events)), open_after_app. simpl.
    rewrite negb_involutive. reflexivity.
Qed.

(** ** What the navigation leaves alone *)

Lemma other_class_on_classes (f : classList -> classList) (t : string) (o : option classList) :
  (forall cl, contains (f cl) t = contains cl t) ->
  option_map (fun cl => contains cl t) (on_classes f o)
  = option_map (fun cl => contains cl t) o.
Proof. intros H. destruct o as [cl|]; simpl; [rewrite H|]; reflexivity. Qed.

Lemma other_class_force (t u : string) (b : bool) (cl : classList) :
  t <> u -> contains (class_force u b cl) t = contains cl t.
Proof.
  intros H. rewrite contains_force.
  destruct (String.eqb_spec t u); [contradiction|reflexivity].
Qed.

Lemma other_class_toggle (t u : string) (cl : classList) :
  t <> u -> contains (class_toggle u cl) t = contains cl t.
Proof.
  intros H. rewrite contains_toggle.
  destruct (String.eqb_spec t u); [contradiction|reflexivity].
Qed.

Lemma other_class_remove (t u : string) (cl : classList) :
  t <> u -> contains (class_remove u cl) t = contains cl t.
Proof.
  intros H. rewrite contains_remove.
  destruct (String.eqb_spec t u); [contradiction|apply andb_true_r].
Qed.

Lemma handle_other_classes (l : listeners) (e : nav_event) (q : nav_page) (t : string) :
  t <> "active" -> t <> "scrolled" ->
  option_map (fun cl => contains cl t) (navbar (handle l e q))
  = option_map (fun cl => contains cl t) (navbar q) /\
  option_map (fun cl => contains cl t) (navToggle (handle l e q))
  = option_map (fun cl => contains cl t) (navToggle q) /\
  option_map (fun cl => contains cl t) (navLinks (handle l e q))
  = option_map (fun cl => contains cl t) (navLinks q) /\
  map (fun i => contains (item_classes i) t) (navItems (handle l e q))
  = map (fun i => contains (item_classes i) t) (navItems q) /\
  map href (navItems (handle l e q)) = map href (navItems q) /\
  sections (handle l e q) = sections q.
Proof.
  intros Ha Hs. destruct e as [y| |]; simpl.
  - repeat split; try reflexivity.
    + destruct (scroll_shadow l); [|reflexivity].
      apply other_class_on_classes. intros cl. apply other_class_force, Hs.
    + destruct (section_highlight l); [|reflexivity].
      rewrite map_map. apply map_ext. intros i. simpl. apply other_class_force, Ha.
    + destruct (section_highlight l); [|reflexivity].
      rewrite map_map. reflexivity.
  - destruct (mobile_menu l); simpl; repeat split; try reflexivity;
      apply other_class_on_classes; intros cl; apply other_class_toggle, Ha.
  - destruct (mobile_menu l); simpl; repeat split; try reflexivity;
      apply other_class_on_classes; intros cl; apply other_class_remove, Ha.
Qed.

(** X4. Whatever the events, the navigation changes no class other
    than [active] and [scrolled]: every other class name is on the same
    elements as before, and the link targets and the sections stay as they
    were. *)
Theorem navigation_touches_two_classes
    (p : nav_page) (events : list nav_event) (t : string) :
  t <> "active" -> t <> "scrolled" ->
  option_map (fun cl => contains cl t) (navbar (after_events p events))
  = option_map (fun cl => contains cl t) (navbar p) /\
  option_map (fun cl => contains cl t) (navToggle (after_events p events))
  = option_map (fun cl => contains cl t) (navToggle p) /\
  option_map (fun cl => contains cl t) (navLinks (after_events p events))
  = option_map (fun cl => contains cl t) (navLinks p) /\
  map (fun i => contains (item_classes i) t) (navItems (after_events p events))
  = map (fun i => contains (item_classes i) t) (navItems p) /\
  map href (navItems (after_events p events)) = map href (navItems p) /\
  sections (after_events p events) = sections p.
Proof.
  intros Ha Hs. unfold after_events.
  set (l := initNavigation p). clearbody l. revert p.
  induction events as [|e events IH]; intros q; simpl.
  - repeat split; reflexivity.
  - destruct (IH (handle l e q)) as [H1 [H2 [H3 [H4 [H5 H6]]]]].
    destruct (handle_other_classes l e q t Ha Hs) as [G1 [G2 [G3 [G4 [G5 G6]]]]].
    rewrite H1, H2, H3, H4, H5, H6. repeat split; assumption.
Qed.

(** ** The section in view *)

Lemma reached_spec (y : Q) (s : section_box) :
  reached y s = true <-> (inject_Z (offsetTop s - 100) <= y)%Q.
Proof. unfold reached. apply Qle_bool_iff. Qed.

Lemma current_section_none (y : Q) (secs : list section_box) (current : string) :
  forallb (fun s => negb (reached y s)) secs = true ->
  fold_left (fun current s => if reached y s then section_id s else current) secs current
  = current.
Proof.
  revert current. induction secs as [|s secs IH]; intros current H; simpl; [reflexivity|].
  simpl in H. apply andb_true_iff in H. destruct H as [Hs H].
  apply negb_true_iff in Hs. rewrite Hs. apply IH, H.
Qed.

(** X6. The section in view is the last one, in the order of the
    document, that the scroll offset has reached, a section being reached
    from 100 above its top on; when none is reached there is no section in
    view.  A section is reached whenever one that lies lower is. *)
Theorem current_section_last_reached (y : Q) :
  (forall secs,
     forallb (fun s => negb (reached y s)) secs = true ->
     current_section y secs = "") /\
  (forall before s after,
     reached y s = true ->
     forallb (fun s' => negb (reached y s')) after = true ->
     current_section y (before ++ s :: after) = section_id s) /\
  (forall s, reached y s = true <-> (inject_Z (offsetTop s) - 100 <= y)%Q) /\
  (forall s1 s2,
     offsetTop s1 <= offsetTop s2 -> reached y s2 = true -> reached y s1 = true).
Proof.
  split; [|split; [|split]].
  - intros secs H. apply current_section_none, H.
  - intros before s after Hs Hafter. unfold current_section.
    rewrite fold_left_app. simpl. rewrite Hs.
    apply current_section_none, Hafter.
  - intros s. rewrite reached_spec.
    unfold Z.sub. rewrite inject_Z_plus, inject_Z_opp. reflexivity.
  - intros s1 s2 Hle H. apply reached_spec. apply reached_spec in H.
    eapply Qle_trans; [|exact H].
    rewrite <- Zle_Qle. lia.
Qed.

Lemma highlight_active (current : string) (item : nav_item) :
  contains (item_classes (highlight current item)) "active" = links_to current item.
Proof. simpl. rewrite contains_force. reflexivity. Qed.

Lemma links_to_spec (current : string) (item : nav_item) :
  links_to current item = true <-> href item = Some ("#" ++ current).
Proof.
  unfold links_to. destruct (href item) as [h|].
  - rewrite String.eqb_eq. split; congruence.
  - split; discriminate.
Qed.

(** X5. On a page with sections and navigation anchors, after a scroll
    event the anchors that carry the class [active] are exactly those
    whose link target is [#] followed by the id of the section in view;
    an anchor without a link target is never active. *)
Theorem highlight_current_section (p : nav_page) (y : Q) :
  sections p <> [] -> navItems p <> [] ->
  List.length (navItems (handle (initNavigation p) (Scroll y) p))
  = List.length (navItems p) /\
  forall (i : nat) (item : nav_item),
    nth_error (navItems (handle (initNavigation p) (Scroll y) p)) i = Some item ->
    exists before : nav_item,
      nth_error (navItems p) i = Some before /\
      href item = href before /\
      (contains (item_classes item) "active" = true
       <-> href before = Some ("#" ++ current_section y (sections p))).
Proof.
  intros Hs Hi.
  assert (Hl : section_highlight (initNavigation p) = true).
  { simpl. destruct (sections p); [contradiction|].
    destruct (navItems p); [contradiction|]. reflexivity. }
  simpl. simpl in Hl. rewrite Hl. split; [apply length_map|].
  intros i item Hn. rewrite nth_error_map in Hn.
  destruct (nth_error (navItems p) i) as [before|]; [|discriminate].
  injection Hn as <-. exists before. split; [reflexivity|]. split; [reflexivity|].
  rewrite highlight_active. apply links_to_spec.
Qed.

Lemma highlight_idem (current : string) (item : nav_item) :
  highlight current (highlight current item) = highlight current item.
Proof.
  unfold highlight. simpl. f_equal.
  change (links_to current
            {| href := href item;
               item_classes := class_force "active" (links_to current item) (item_classes item) |})
    with (links_to current item).
  apply class_force_idem.
Qed.

(** X7. A scroll event at the offset of the event before it changes
    nothing. *)
Theorem scroll_twice_same (p : nav_page) (l : listeners) (y : Q) :
  handle l (Scroll y) (handle l (Scroll y) p) = handle l (Scroll y) p.
Proof.
  simpl. f_equal.
  - destruct (scroll_shadow l); [|reflexivity].
    destruct (navbar p) as [cl|]; simpl; [|reflexivity].
    rewrite class_force_idem. reflexivity.
  - destruct (section_highlight l); [|reflexivity].
    rewrite map_map. apply map_ext. intros item. apply highlight_idem.
Qed.

(** ** Pagination that runs to its end *)

Lemma truthyC_false (f : field cursor) :
  truthyC f = false <->
  f = Absent \/ f = Null \/ f = Val (CNum 0) \/ f = Val (CStr "").
Proof.
  destruct f as [| |[n|s]]; simpl.
  - tauto.
  - split; [tauto|reflexivity].
  - rewrite negb_false_iff, Z.eqb_eq. split.
    + intros ->. tauto.
    + intros [H|[H|[H|H]]]; try discriminate. injection H as ->. reflexivity.
  - destruct s; split; try tauto; try discriminate.
    intros [H|[H|[H|H]]]; discriminate.
Qed.

(** X8. When the first page and the follow-up pages each carry a cursor
    and the next page carries none, the loop ends there: the publications
    of all pages are rendered, in the order the pages arrived, and no
    further request is made. *)
Theorem pagination_collects_all_pages
    (currentYear : Z) (first : outcome) (pages : list outcome) (last : outcome)
    (d : page) (net : network) (doc : document) :
  continues first = true ->
  forallb continues pages = true ->
  page_of last = Some d -> truthyC (next d) = false ->
  fetchScholarData currentYear (first :: pages ++ last :: net)%list doc
  = Some (Rendered,
          renderPublications
            (recentPapers currentYear
               (outcome_papers first ++ flat_map outcome_papers pages
                ++ list_or_empty (data d))%list) doc,
          net).
Proof.
  intros Hfirst Hpages Hlast Hend.
  unfold continues in Hfirst. unfold outcome_papers at 1.
  destruct (page_of first) as [d0|] eqn:Hd; [|discriminate].
  rewrite (fetch_initial_page _ _ _ _ _ Hd).
  unfold collect_papers, fetchRemainingPapers. rewrite Hfirst.
  rewrite (fetchRemainingLoop_complete pages last d net Hpages Hlast Hend _ [] Hfirst).
  reflexivity.
Qed.

(** X9. A first page whose cursor is absent, null, 0 or the empty
    string is the only page: its publications are rendered and no
    follow-up request is made.  A page without a list of publications
    counts as an empty one. *)
Theorem single_page_without_cursor
    (currentYear : Z) (o : outcome) (d : page) (net : network) (doc : document) :
  page_of o = Some d ->
  next d = Absent \/ next d = Null \/ next d = Val (CNum 0) \/ next d = Val (CStr "") ->
  fetchScholarData currentYear (o :: net) doc
  = Some (Rendered,
          renderPublications (recentPapers currentYear (list_or_empty (data d))) doc,
          net) /\
  (data d = Absent \/ data d = Null ->
   forall c, publications_list doc = Some c ->
   fetchScholarData currentYear (o :: net) doc
   = Some (Rendered, {| publications_list := Some (Markup no_results_html) |}, net)).
Proof.
  intros Ho Hn. apply truthyC_false in Hn.
  assert (H : fetchScholarData currentYear (o :: net) doc
              = Some (Rendered,
                      renderPublications (recentPapers currentYear (list_or_empty (data d))) doc,
                      net)).
  { rewrite (fetch_initial_page _ _ _ _ _ Ho).
    unfold collect_papers. rewrite Hn. reflexivity. }
  split; [exact H|].
  intros Hd c Hc. rewrite H.
  replace (list_or_empty (data d)) with (@nil paper)
    by (destruct Hd as [-> | ->]; reflexivity).
  do 2 f_equal. f_equal.
  apply (renderPublications_placeholder [] doc c Hc). reflexivity.
Qed.

(** ** What a bucket holds *)

Lemma get_push_group (k k' : key) (p : paper) (g : object) :
  get (push_group k p g) k'
  = if key_eqb k' k
    then Some (match get g k with Some v => v ++ [p] | None => [p] end)%list
    else get g k'.
Proof.
  induction g as [|[k0 v] g IH]; simpl.
  - destruct (key_eqb k' k); reflexivity.
  - destruct (key_eqb k k0) eqn:E; simpl.
    + apply key_eqb_eq in E. subst k0.
      destruct (key_eqb k' k); reflexivity.
    + rewrite IH. destruct (key_eqb k' k0) eqn:E'; [|reflexivity].
      apply key_eqb_eq in E'. subst k0.
      destruct (key_eqb k' k) eqn:E''; [|reflexivity].
      apply key_eqb_eq in E''. subst k'. rewrite key_eqb_refl in E. discriminate.
Qed.

Lemma key_eqb_sym (a b : key) : key_eqb a b = key_eqb b a.
Proof. destruct a, b; simpl; try reflexivity. apply Z.eqb_sym. Qed.

Lemma get_group_fold (papers : list paper) (g : object) (k : key) :
  get (fold_left (fun grouped p => push_group (year_key p) p grouped) papers g) k
  = match get g k with
    | Some v => Some (v ++ filter (has_key k) papers)%list
    | None => match filter (has_key k) papers with
              | [] => None
              | ps => Some ps
              end
    end.
Proof.
  revert g. induction papers as [|p papers IH]; intros g; simpl.
  - destruct (get g k); [rewrite app_nil_r|]; reflexivity.
  - rewrite IH, get_push_group.
    replace (has_key k p) with (key_eqb k (year_key p)) by apply key_eqb_sym.
    destruct (key_eqb k (year_key p)) eqn:E; [|reflexivity].
    apply key_eqb_eq in E. subst k.
    destruct (get g (year_key p)) as [v|]; simpl.
    + rewrite <- app_assoc. reflexivity.
    + reflexivity.
Qed.

(** X10. The bucket of a key holds exactly the publications of the list
    that fall under the key, in the order of the list; a key under which
    no publication falls has no bucket. *)
Theorem bucket_contents (papers : list paper) (k : key) :
  get (groupByYear papers) k
  = match filter (has_key k) papers with
    | [] => None
    | ps => Some ps
    end.
Proof. unfold groupByYear. rewrite get_group_fold. reflexivity. Qed.

(** ** The rendered list as a whole *)

Lemma bucket_or_empty (papers : list paper) (k : key) :
  match get (groupByYear papers) k with Some v => v | None => [] end
  = filter (has_key k) papers.
Proof.
  rewrite bucket_contents. destruct (filter (has_key k) papers); reflexivity.
Qed.

Lemma items_sections (grouped : object) (years : list key) :
  flat_map section_items (map (year_section grouped) years)
  = flat_map (fun k => map createPaperElement
                         (match get grouped k with Some v => v | None => [] end)) years.
Proof.
  induction years as [|k years IH]; simpl; [reflexivity|].
  rewrite IH. reflexivity.
Qed.

Lemma items_rendered (grouped : object) (doc : document) (c : content) :
  publications_list doc = Some c ->
  items (renderGroupedPapers grouped doc)
  = flat_map (fun k => map createPaperElement
                         (match get grouped k with Some v => v | None => [] end))
             (sorted_years grouped).
Proof.
  intros Hc. unfold renderGroupedPapers. rewrite Hc.
  destruct (sorted_years grouped) as [|k years] eqn:E; [reflexivity|].
  unfold items. cbn [publications_list]. apply items_sections.
Qed.

Lemma map_flat_map {A B C : Type} (f : B -> C) (g : A -> list B) (l : list A) :
  flat_map (fun a => map f (g a)) l = map f (flat_map g l).
Proof.
  induction l as [|a l IH]; simpl; [reflexivity|].
  rewrite IH, map_app. reflexivity.
Qed.

Lemma flat_map_ext_in {A B : Type} (f g : A -> list B) (l : list A) :
  (forall a, In a l -> f a = g a) -> flat_map f l = flat_map g l.
Proof.
  induction l as [|a l IH]; intros H; simpl; [reflexivity|].
  rewrite (H a (or_introl eq_refl)), IH; [reflexivity|].
  intros b Hb. apply H. right. exact Hb.
Qed.

Lemma filter_none {A : Type} (f : A -> bool) (l : list A) :
  (forall x, In x l -> f x = false) -> filter f l = [].
Proof.
  induction l as [|x l IH]; intros H; simpl; [reflexivity|].
  rewrite (H x (or_introl eq_refl)). apply IH. intros y Hy. apply H. right. exact Hy.
Qed.

Lemma filter_all {A : Type} (f : A -> bool) (l : list A) :
  (forall x, In x l -> f x = true) -> filter f l = l.
Proof.
  induction l as [|x l IH]; intros H; simpl; [reflexivity|].
  rewrite (H x (or_introl eq_refl)). f_equal. apply IH. intros y Hy. apply H. right. exact Hy.
Qed.

Lemma filter_filter_implied {A : Type} (f g : A -> bool) (l : list A) :
  (forall x, f x = true -> g x = true) -> filter f (filter g l) = filter f l.
Proof.
  intros H. induction l as [|x l IH]; simpl; [reflexivity|].
  destruct (g x) eqn:Hg; simpl.
  - rewrite IH. reflexivity.
  - destruct (f x) eqn:Hf; [|exact IH].
    rewrite (H x Hf) in Hg. discriminate.
Qed.

Lemma StronglySorted_filter {A : Type} (R : A -> A -> Prop) (f : A -> bool) (l : list A) :
  StronglySorted R l -> StronglySorted R (filter f l).
Proof.
  induction 1 as [|x l Hs IH Hx]; simpl; [constructor|].
  destruct (f x); [|exact IH].
  constructor; [exact IH|].
  rewrite Forall_forall in *. intros y Hy. apply filter_In in Hy. apply Hx, Hy.
Qed.

Lemma has_key_year (p : paper) (y : Z) :
  has_key (YearKey y) p = true <-> year_key p = YearKey y.
Proof. unfold has_key. apply key_eqb_eq. Qed.

Lemma year_key_sort_year (p : paper) (y : Z) :
  year_key p = YearKey y -> sort_year p = y.
Proof.
  unfold year_key, sort_year. destruct (truthyZ (year p)); [|discriminate].
  intros H. injection H as H. exact H.
Qed.

(** In a list sorted by year the publications of the latest year come
    first. *)
Lemma latest_year_first (y : Z) (l : list paper) :
  StronglySorted paper_le l ->
  (forall p, In p l -> exists y', year_key p = YearKey y' /\ y' <= y) ->
  l = (filter (has_key (YearKey y)) l
       ++ filter (fun p => negb (has_key (YearKey y) p)) l)%list.
Proof.
  induction 1 as [|x l Hs IH Hx]; intros Hyears; simpl; [reflexivity|].
  destruct (has_key (YearKey y) x) eqn:E; simpl.
  - f_equal. apply IH. intros p Hp. apply Hyears. right. exact Hp.
  - assert (Hnone : forall p, In p l -> has_key (YearKey y) p = false).
    { intros p Hp.
      destruct (Hyears x (or_introl eq_refl)) as [yx [Hkx Hlex]].
      destruct (Hyears p (or_intror Hp)) as [yp [Hkp Hlep]].
      destruct (has_key (YearKey y) p) eqn:Ep; [|reflexivity].
      apply has_key_year in Ep. rewrite Hkp in Ep. injection Ep as ->.
      assert (yx <> y).
      { intros ->. apply has_key_year in Hkx. congruence. }
      rewrite Forall_forall in Hx. specialize (Hx p Hp).
      unfold paper_le in Hx.
      rewrite (year_key_sort_year _ _ Hkx), (year_key_sort_year _ _ Hkp) in Hx. lia. }
    rewrite (filter_none _ _ Hnone). simpl. f_equal. symmetry.
    apply filter_all. intros p Hp. rewrite (Hnone p Hp). reflexivity.
Qed.

(** The buckets of a list sorted by year, taken year after year in
    descending order, give back the list. *)
Lemma buckets_in_order (ys : list Z) :
  StronglySorted Z.gt ys ->
  forall l : list paper,
    StronglySorted paper_le l ->
    (forall p, In p l -> exists y, In y ys /\ year_key p = YearKey y) ->
    flat_map (fun k => filter (has_key k) l) (map YearKey ys) = l.
Proof.
  induction 1 as [|y ys Hs IH Hy]; intros l Hl Hin; simpl.
  - destruct l as [|p l]; [reflexivity|].
    destruct (Hin p (or_introl eq_refl)) as [y [[] _]].
  - rewrite Forall_forall in Hy.
    set (rest := filter (fun p => negb (has_key (YearKey y) p)) l).
    assert (Hrest : flat_map (fun k => filter (has_key k) l) (map YearKey ys) = rest).
    { rewrite <- (IH rest).
      - apply flat_map_ext_in. intros k Hk.
        apply in_map_iff in Hk. destruct Hk as [y' [<- Hy']].
        unfold rest. symmetry. apply filter_filter_implied.
        intros p Hp. apply has_key_year in Hp.
        destruct (has_key (YearKey y) p) eqn:E; [|reflexivity].
        apply has_key_year in E. rewrite Hp in E. injection E as ->.
        specialize (Hy _ Hy'). lia.
      - apply StronglySorted_filter, Hl.
      - intros p Hp. unfold rest in Hp. apply filter_In in Hp. destruct Hp as [Hp Hk].
        destruct (Hin p Hp) as [y' [[<-|Hy'] Hky]]; [|eauto].
        apply has_key_year in Hky. rewrite Hky in Hk. discriminate. }
    rewrite Hrest. unfold rest. symmetry. apply latest_year_first; [exact Hl|].
    intros p Hp. destruct (Hin p Hp) as [y' [[<-|Hy'] Hky]].
    + exists y. split; [exact Hky|lia].
    + exists y'. split; [exact Hky|]. specialize (Hy _ Hy'). lia.
Qed.

(** X11. When every publication of the list has a year, the publication
    elements of the rendered list, read from top to bottom across the year
    sections, are the elements of the publications in sorted order: each
    publication is shown once, and the sections follow the sort.  This
    holds for what the recency filter keeps. *)
Theorem rendered_items_follow_sort (papers : list paper) (doc : document) (c : content) :
  publications_list doc = Some c ->
  (has_undated papers = false ->
   items (renderPublications papers doc)
   = map createPaperElement (sort_papers papers)) /\
  (forall currentYear,
     items (renderPublications (recentPapers currentYear papers) doc)
     = map createPaperElement (sort_papers (recentPapers currentYear papers))).
Proof.
  intros Hc.
  assert (H : forall ps, has_undated ps = false ->
            items (renderPublications ps doc) = map createPaperElement (sort_papers ps)).
  { intros ps Hu. unfold renderPublications.
    rewrite (items_rendered _ _ _ Hc).
    set (l := sort_papers ps).
    assert (Hul : has_undated l = false).
    { apply has_undated_false. intros p Hp. apply array_sort_in in Hp.
      unfold has_undated in Hu.
      destruct (truthyZ (year p)) eqn:E; [reflexivity|].
      assert (existsb (fun p => negb (truthyZ (year p))) ps = true).
      { apply existsb_exists. exists p. rewrite E. auto. }
      congruence. }
    destruct (sorted_years_shape (groupByYear l) (groupByYear_nodup l)) as [ys [Hys Hk]].
    rewrite groupByYear_has_undated, Hul, app_nil_r in Hk.
    rewrite (flat_map_ext_in _ (fun k => map createPaperElement (filter (has_key k) l)))
      by (intros k _; rewrite bucket_or_empty; reflexivity).
    rewrite map_flat_map. f_equal. rewrite Hk.
    apply buckets_in_order; [exact Hys|apply sort_papers_sorted|].
    intros p Hp.
    assert (Hkey : In (year_key p) (sorted_years (groupByYear l))).
    { apply (Permutation_in _ (sorted_years_perm _)), groupByYear_in. eauto. }
    rewrite Hk in Hkey. apply in_map_iff in Hkey.
    destruct Hkey as [y [Hy Hin]]. eauto. }
  split; [apply H|].
  intros currentYear. apply H.
  apply has_undated_false. intros p Hp. eapply recentPapers_truthy, Hp.
Qed.

Lemma descending_nodup (ys : list Z) : StronglySorted Z.gt ys -> NoDup ys.
Proof.
  induction 1 as [|y ys Hs IH Hy]; constructor; [|exact IH].
  intros Hin. rewrite Forall_forall in Hy. specialize (Hy y Hin). lia.
Qed.

Lemma map_inj_nodup {A B : Type} (f : A -> B) (l : list A) :
  (forall x y, f x = f y -> x = y) -> NoDup l -> NoDup (map f l).
Proof.
  intros Hf. induction 1 as [|x l Hx Hl IH]; simpl; constructor; [|exact IH].
  intros Hin. apply in_map_iff in Hin. destruct Hin as [y [E Hy]].
  apply Hf in E. subst y. contradiction.
Qed.

(** X12. No year heading appears twice in the rendered list, and the
    headings shown are exactly the texts of the keys of the publications:
    the decimal year, or [Undated] for a publication without year. *)
Theorem one_heading_per_year (papers : list paper) (doc : document) (c : content) :
  publications_list doc = Some c ->
  NoDup (headings (renderPublications papers doc)) /\
  forall h, In h (headings (renderPublications papers doc))
            <-> exists p, In p papers /\ h = key_text (year_key p).
Proof.
  intros Hc. unfold renderPublications.
  rewrite (headings_rendered _ _ _ Hc).
  set (g := groupByYear (sort_papers papers)).
  split.
  - apply map_inj_nodup; [exact key_text_inj|].
    eapply Permutation_NoDup; [apply sorted_years_perm|].
    apply groupByYear_nodup.
  - intros h. rewrite in_map_iff. split.
    + intros [k [<- Hk]].
      apply (Permutation_in _ (Permutation_sym (sorted_years_perm _))) in Hk.
      apply groupByYear_in in Hk. destruct Hk as [p [Hp <-]].
      apply array_sort_in in Hp. eauto.
    + intros [p [Hp ->]]. exists (year_key p). split; [reflexivity|].
      apply (Permutation_in _ (sorted_years_perm _)), groupByYear_in.
      exists p. split; [|reflexivity]. apply array_sort_in. exact Hp.
Qed.

(** ** Escaping *)

Lemma escapeHtml_app (a b : string) :
  escapeHtml (a ++ b) = escapeHtml a ++ escapeHtml b.
Proof.
  induction a as [|c a IH]; simpl; [reflexivity|].
  rewrite IH, string_app_assoc. reflexivity.
Qed.

Lemma escape_char_plain (c : ascii) :
  Ascii.eqb c "&" = false -> Ascii.eqb c "160" = false ->
  Ascii.eqb c "<" = false -> Ascii.eqb c ">" = false ->
  escape_char c = String c "".
Proof. intros H1 H2 H3 H4. unfold escape_char. rewrite H1, H2, H3, H4. reflexivity. Qed.

(** X13. Escaped text holds neither [<] nor [>] and is read by the
    browser as text without any tag; escaping goes through a string piece
    by piece, and leaves a string without [&], [<], [>] and U+00A0 as it
    is. *)
Theorem escaped_text_is_inert (s : string) :
  lacks "<" (escapeHtml s) = true /\
  lacks ">" (escapeHtml s) = true /\
  tags (escapeHtml s) = [] /\
  (forall t, escapeHtml (s ++ t) = escapeHtml s ++ escapeHtml t) /\
  (lacks "&" s = true -> lacks "160" s = true ->
   lacks "<" s = true -> lacks ">" s = true -> escapeHtml s = s).
Proof.
  split; [apply escapeHtml_lacks_lt|].
  split; [apply escapeHtml_lacks_gt|].
  split; [apply data_piece_tags, data_piece_escaped|].
  split; [intros t; apply escapeHtml_app|].
  induction s as [|c s IH]; simpl; intros H1 H2 H3 H4; [reflexivity|].
  apply andb_true_iff in H1, H2, H3, H4.
  destruct H1 as [C1 H1], H2 as [C2 H2], H3 as [C3 H3], H4 as [C4 H4].
  apply negb_true_iff in C1, C2, C3, C4.
  rewrite (escape_char_plain c C1 C2 C3 C4), (IH H1 H2 H3 H4). reflexivity.
Qed.

Lemma escape_char_cases (c : ascii) :
  (c = "&"%char /\ escape_char c = "&amp;") \/
  (c = "160"%char /\ escape_char c = "&nbsp;") \/
  (c = "<"%char /\ escape_char c = "&lt;") \/
  (c = ">"%char /\ escape_char c = "&gt;") \/
  (c <> "&"%char /\ escape_char c = String c "").
Proof.
  unfold escape_char.
  destruct (Ascii.eqb_spec c "&"); [auto|].
  destruct (Ascii.eqb_spec c "160"); [auto|].
  destruct (Ascii.eqb_spec c "<"); [auto|].
  destruct (Ascii.eqb_spec c ">"); [auto 6|].
  auto 6.
Qed.

Lemma string_app_inv_head (p x y : string) : p ++ x = p ++ y -> x = y.
Proof.
  induction p as [|c p IH]; simpl; intros H; [exact H|].
  apply IH. congruence.
Qed.

Lemma string_head_eq (c d : ascii) (x y : string) :
  String c x = String d y -> c = d /\ x = y.
Proof. intros H. split; congruence. Qed.

(** X14. Escaping loses nothing: two strings with the same escaped text
    are the same string. *)
Theorem escapeHtml_injective (a b : string) :
  escapeHtml a = escapeHtml b -> a = b.
Proof.
  revert b. induction a as [|c a IH]; intros [|d b] H; simpl in H.
  - reflexivity.
  - exfalso.
    destruct (escape_char_cases d) as [[_ E]|[[_ E]|[[_ E]|[[_ E]|[_ E]]]]];
      rewrite E in H; discriminate H.
  - exfalso.
    destruct (escape_char_cases c) as [[_ E]|[[_ E]|[[_ E]|[[_ E]|[_ E]]]]];
      rewrite E in H; discriminate H.
  - destruct (escape_char_cases c) as [[Hc E]|[[Hc E]|[[Hc E]|[[Hc E]|[Hc E]]]]];
    destruct (escape_char_cases d) as [[Hd F]|[[Hd F]|[[Hd F]|[[Hd F]|[Hd F]]]]];
      rewrite E, F in H;
      try (subst c d; apply string_app_inv_head in H; f_equal; apply IH; exact H);
      try (subst c; simpl in H; apply string_head_eq in H; destruct H as [H _];
           first [discriminate H | congruence]);
      try (subst d; simpl in H; apply string_head_eq in H; destruct H as [H _];
           first [discriminate H | congruence]);
      try (exfalso; subst c d; simpl in H;
           apply string_head_eq in H; destruct H as [_ H];
           apply string_head_eq in H; destruct H as [H _]; discriminate H).
    simpl in H. apply string_head_eq in H. destruct H as [-> H].
    f_equal. apply IH. exact H.
Qed.

(** ** The markup of a publication, continued *)

Lemma template_tag_names (p : paper) :
  Forall (fun t => In (token_name t) ["div"; "a"; "p"; "strong"]) (template_tags p).
Proof.
  unfold template_tags. rewrite !Forall_app. repeat split.
  - repeat constructor; simpl; tauto.
  - destruct (nonempty (format_authors p)); [|constructor].
    constructor; [simpl; tauto|]. rewrite Forall_app. split.
    + rewrite Forall_forall. intros t Ht. apply in_flat_map in Ht.
      destruct Ht as [a [_ Ht]]. unfold author_tags in Ht.
      destruct (regex_test_ci "razaviyayn" (escapeHtml (str_or (name a) "")));
        [|destruct Ht].
      destruct Ht as [<-|[<-|[]]]; simpl; tauto.
    + repeat constructor; simpl; tauto.
  - destruct (nonempty (escapeHtml (str_or (venue p) ""))); repeat constructor; simpl; tauto.
  - repeat constructor; simpl; tauto.
Qed.

(** ** Emphasis of the site owner *)

Lemma to_lower_eqb (a b : ascii) :
  Ascii.eqb (to_lower a) (to_lower b) = true <-> to_lower a = to_lower b.
Proof. apply Ascii.eqb_eq. Qed.

Lemma prefix_ci_spec (p s : string) :
  prefix_ci p s = true <-> exists m post, s = m ++ post /\ lower m = lower p.
Proof.
  revert s. induction p as [|a p IH]; intros s.
  - destruct s; simpl; (split; [intros _; eexists "", _; split; reflexivity|reflexivity]).
  - destruct s as [|b s]; simpl.
    + split; [discriminate|]. intros [m [post [E L]]].
      destruct m; [discriminate L|discriminate E].
    + rewrite andb_true_iff, to_lower_eqb, IH. split.
      * intros [Hab [m [post [-> L]]]].
        exists (String b m), post. simpl. split; [reflexivity|]. congruence.
      * intros [m [post [E L]]]. destruct m as [|c m]; [discriminate L|].
        simpl in E, L. injection E as -> ->. injection L as L1 L2.
        split; [congruence|]. exists m, post. auto.
Qed.

Lemma regex_test_ci_spec (p s : string) :
  regex_test_ci p s = true <->
  exists pre m post, s = pre ++ m ++ post /\ lower m = lower p.
Proof.
  induction s as [|c s IH].
  - simpl. rewrite orb_false_r, prefix_ci_spec. split.
    + intros [m [post [E L]]]. exists "", m, post. auto.
    + intros [pre [m [post [E L]]]]. destruct pre; [|discriminate E].
      exists m, post. auto.
  - cbn [regex_test_ci]. rewrite orb_true_iff, prefix_ci_spec, IH. split.
    + intros [[m [post [E L]]]|[pre [m [post [E L]]]]].
      * exists "", m, post. auto.
      * exists (String c pre), m, post. simpl. split; [congruence|exact L].
    + intros [pre [m [post [E L]]]]. destruct pre as [|c' pre].
      * left. exists m, post. auto.
      * right. simpl in E. injection E as -> ->. exists pre, m, post. auto.
Qed.

Lemma letter_not_special (a c : ascii) :
  is_alpha a = true ->
  c = "&"%char \/ c = "160"%char \/ c = "<"%char \/ c = ">"%char ->
  Ascii.eqb (to_lower a) (to_lower c) = false.
Proof.
  intros Ha Hc. unfold is_alpha in Ha.
  destruct (Ascii.eqb_spec (to_lower a) (to_lower c)) as [E|]; [|reflexivity].
  rewrite E in Ha.
  destruct Hc as [->|[->|[->| ->]]]; vm_compute in Ha; discriminate Ha.
Qed.

(** Escaping does not change whether a string begins with given letters. *)
Lemma prefix_ci_escaped (p s : string) :
  forallb is_alpha (list_ascii_of_string p) = true ->
  prefix_ci p (escapeHtml s) = prefix_ci p s.
Proof.
  revert s. induction p as [|a p IH]; intros s Hp.
  - destruct (escapeHtml s), s; reflexivity.
  - simpl in Hp. apply andb_true_iff in Hp. destruct Hp as [Ha Hp].
    destruct s as [|c s]; [reflexivity|].
    cbn [escapeHtml].
    destruct (escape_char_cases c) as [[Hc E]|[[Hc E]|[[Hc E]|[[Hc E]|[_ E]]]]];
      rewrite E.
    + cbn [append prefix_ci].
      rewrite (letter_not_special a "&" Ha) by tauto.
      subst c. rewrite (letter_not_special a "&" Ha) by tauto. reflexivity.
    + cbn [append prefix_ci].
      rewrite (letter_not_special a "&" Ha) by tauto.
      subst c. rewrite (letter_not_special a "160" Ha) by tauto. reflexivity.
    + cbn [append prefix_ci].
      rewrite (letter_not_special a "&" Ha) by tauto.
      subst c. rewrite (letter_not_special a "<" Ha) by tauto. reflexivity.
    + cbn [append prefix_ci].
      rewrite (letter_not_special a "&" Ha) by tauto.
      subst c. rewrite (letter_not_special a ">" Ha) by tauto. reflexivity.
    + cbn [append prefix_ci]. rewrite (IH s Hp). reflexivity.
Qed.

Lemma owner_test_escaped (s : string) :
  regex_test_ci "razaviyayn" (escapeHtml s) = regex_test_ci "razaviyayn" s.
Proof.
  induction s as [|c s IH]; [reflexivity|].
  pose proof (prefix_ci_escaped "razaviyayn" (String c s) eq_refl) as Hp.
  cbn [escapeHtml] in *.
  destruct (escape_char_cases c) as [[Hc E]|[[Hc E]|[[Hc E]|[[Hc E]|[_ E]]]]];
    rewrite E in *; try subst c.
  - cbn. exact IH.
  - cbn. exact IH.
  - cbn. exact IH.
  - cbn. exact IH.
  - cbn [append] in *. cbn [regex_test_ci]. rewrite Hp, IH. reflexivity.
Qed.

(** X16. An author is set in [strong] exactly when the name, as the
    record gives it, contains the letters razaviyayn in whatever case;
    escaping the name before the test does not change its outcome.  Every
    other name is written escaped and without emphasis. *)
Theorem emphasis_follows_raw_name (a : author) :
  ((exists pre m post,
      str_or (name a) "" = pre ++ m ++ post /\ lower m = "razaviyayn") ->
   format_author a = "<strong>" ++ escapeHtml (str_or (name a) "") ++ "</strong>") /\
  (~ (exists pre m post,
        str_or (name a) "" = pre ++ m ++ post /\ lower m = "razaviyayn") ->
   format_author a = escapeHtml (str_or (name a) "")) /\
  regex_test_ci "razaviyayn" (escapeHtml (str_or (name a) ""))
  = regex_test_ci "razaviyayn" (str_or (name a) "").
Proof.
  pose proof (regex_test_ci_spec "razaviyayn" (str_or (name a) "")) as Hspec.
  change (lower "razaviyayn") with "razaviyayn" in Hspec.
  unfold format_author. rewrite owner_test_escaped.
  split; [|split; [|reflexivity]].
  - intros H. apply Hspec in H. rewrite H. reflexivity.
  - intros H.
    destruct (regex_test_ci "razaviyayn" (str_or (name a) "")); [|reflexivity].
    exfalso. apply H, Hspec. reflexivity.
Qed.

(** ** The optional paragraphs *)

Lemma nonempty_escaped (s : string) : nonempty (escapeHtml s) = nonempty s.
Proof.
  destruct s as [|c s]; [reflexivity|]. simpl.
  destruct (escape_char_cases c) as [[_ E]|[[_ E]|[[_ E]|[[_ E]|[_ E]]]]];
    rewrite E; reflexivity.
Qed.

Lemma nonempty_app (a b : string) : nonempty (a ++ b) = nonempty a || nonempty b.
Proof. destruct a; simpl; [reflexivity|reflexivity]. Qed.

Lemma nonempty_format_author (a : author) :
  nonempty (format_author a) = negb (no_name a).
Proof.
  unfold format_author, no_name. rewrite negb_involutive.
  destruct (regex_test_ci "razaviyayn" (escapeHtml (str_or (name a) ""))) eqn:E.
  - rewrite owner_test_escaped in E.
    destruct (str_or (name a) ""); [discriminate E|reflexivity].
  - apply nonempty_escaped.
Qed.

Lemma format_authors_empty (l : list author) :
  nonempty (concat ", " (map format_author l)) = false <->
  l = [] \/ exists a, l = [a] /\ no_name a = true.
Proof.
  destruct l as [|a [|b l]].
  - simpl. split; auto.
  - simpl. rewrite nonempty_format_author, negb_false_iff. split.
    + intros H. right. exists a. auto.
    + intros [H|[a' [E H]]]; [discriminate|]. injection E as <-. exact H.
  - change (concat ", " (map format_author (a :: b :: l)))
      with (format_author a ++ ", " ++ concat ", " (map format_author (b :: l))).
    rewrite nonempty_app, nonempty_app. simpl. rewrite orb_true_r. split.
    + discriminate.
    + intros [H|[a' [E _]]]; discriminate.
Qed.

Lemma str_or_empty (f : field string) :
  nonempty (str_or f "") = false <-> f = Absent \/ f = Null \/ f = Val "".
Proof.
  destruct f as [| |s]; simpl; try tauto.
  destruct s; simpl; split; try tauto; try discriminate.
  intros [H|[H|H]]; discriminate.
Qed.

Lemma author_tags_strong (l : list author) (t : token) :
  In t (flat_map author_tags l) -> t = StartTag "strong" [] \/ t = EndTag "strong".
Proof.
  intros Ht. apply in_flat_map in Ht. destruct Ht as [a [_ Ht]].
  unfold author_tags in Ht.
  destruct (regex_test_ci "razaviyayn" (escapeHtml (str_or (name a) "")));
    [|destruct Ht].
  destruct Ht as [<-|[<-|[]]]; auto.
Qed.

Lemma authors_paragraph_in (p : paper) :
  In (StartTag "p" [("class", "pub-authors")]) (template_tags p)
  <-> nonempty (format_authors p) = true.
Proof.
  unfold template_tags. rewrite !in_app_iff. split.
  - intros [H|[H|[H|H]]].
    + destruct H as [E|[E|[E|[]]]]; discriminate E.
    + destruct (nonempty (format_authors p)); [reflexivity|destruct H].
    + destruct (nonempty (escapeHtml (str_or (venue p) ""))); [|destruct H].
      destruct H as [E|[E|[]]]; discriminate E.
    + destruct H as [E|[]]. discriminate E.
  - intros H. right. left. rewrite H. left. reflexivity.
Qed.

Lemma venue_paragraph_in (p : paper) :
  In (StartTag "p" [("class", "pub-venue")]) (template_tags p)
  <-> nonempty (escapeHtml (str_or (venue p) "")) = true.
Proof.
  unfold template_tags. rewrite !in_app_iff. split.
  - intros [H|[H|[H|H]]].
    + destruct H as [E|[E|[E|[]]]]; discriminate E.
    + destruct (nonempty (format_authors p)); [|destruct H].
      destruct H as [E|H]; [discriminate E|].
      apply in_app_iff in H. destruct H as [H|[E|[]]]; [|discriminate E].
      destruct (author_tags_strong _ _ H) as [E|E]; discriminate E.
    + destruct (nonempty (escapeHtml (str_or (venue p) ""))); [reflexivity|destruct H].
    + destruct H as [E|[]]. discriminate E.
  - intros H. right. right. left. rewrite H. left. reflexivity.
Qed.

(** X17. For a link target without double quote: the paragraph of the
    authors is left out exactly when the publication has no author, or
    one author only whose name is missing, null or empty; the paragraph of
    the venue is left out exactly when the venue is missing, null or
    empty. *)
Theorem optional_paragraphs (p : paper) :
  lacks "034" (paper_href p) = true ->
  (~ In (StartTag "p" [("class", "pub-authors")]) (tags (markup_of (createPaperElement p)))
   <-> list_or_empty (authors p) = [] \/
       exists a, list_or_empty (authors p) = [a] /\ no_name a = true) /\
  (~ In (StartTag "p" [("class", "pub-venue")]) (tags (markup_of (createPaperElement p)))
   <-> venue p = Absent \/ venue p = Null \/ venue p = Val "").
Proof.
  intros H. rewrite (createPaperElement_tags p H).
  rewrite authors_paragraph_in, venue_paragraph_in, nonempty_escaped.
  rewrite <- format_authors_empty, <- str_or_empty.
  fold (format_authors p).
  split.
  - destruct (nonempty (format_authors p)); intuition congruence.
  - destruct (nonempty (str_or (venue p) "")); intuition congruence.
Qed.

(** ** Rendering again *)

Lemma paper_le_cmp (a b : paper) : paper_le a b -> paper_cmp a b <= 0.
Proof.
  unfold paper_cmp, paper_le, sort_year, sort_citations.
  destruct (Z.eqb_spec (num_or (year b) 0 - num_or (year a) 0) 0); simpl; lia.
Qed.

Lemma sort_papers_sorted_id (l : list paper) :
  StronglySorted paper_le l -> sort_papers l = l.
Proof.
  unfold sort_papers. induction 1 as [|x l Hs IH Hx]; simpl; [reflexivity|].
  rewrite IH. destruct l as [|y l]; [reflexivity|]. simpl.
  inversion Hx as [|? ? Hxy _]; subst.
  apply paper_le_cmp in Hxy.
  destruct (Z.leb_spec (paper_cmp x y) 0); [reflexivity|lia].
Qed.

Lemma renderGroupedPapers_replaces (g g' : object) (doc : document) :
  renderGroupedPapers g (renderGroupedPapers g' doc) = renderGroupedPapers g doc.
Proof.
  unfold renderGroupedPapers.
  destruct (publications_list doc) as [c|] eqn:Hc.
  - destruct (sorted_years g'); simpl; reflexivity.
  - rewrite Hc. reflexivity.
Qed.

(** X18. Rendering replaces what the list held: rendering after an
    earlier rendering, or after the error fallback, gives what rendering
    alone gives, and the fallback after a rendering gives the fallback.
    Sorting a sorted list changes nothing, so a list that arrives sorted
    is rendered as one that does not. *)
Theorem rendering_replaces_content (papers earlier : list paper) (doc : document) :
  renderPublications papers (renderPublications earlier doc)
  = renderPublications papers doc /\
  renderPublications papers (renderError doc) = renderPublications papers doc /\
  renderError (renderPublications earlier doc) = renderError doc /\
  sort_papers (sort_papers papers) = sort_papers papers /\
  renderPublications (sort_papers papers) doc = renderPublications papers doc.
Proof.
  assert (Hsort : sort_papers (sort_papers papers) = sort_papers papers).
  { apply sort_papers_sorted_id, sort_papers_sorted. }
  split; [|split; [|split; [|split]]].
  - unfold renderPublications. apply renderGroupedPapers_replaces.
  - unfold renderPublications, renderGroupedPapers, renderError.
    destruct (publications_list doc) as [c|] eqn:Hc; simpl; [reflexivity|].
    rewrite Hc. reflexivity.
  - unfold renderPublications, renderGroupedPapers, renderError.
    destruct (publications_list doc) as [c|] eqn:Hc.
    + destruct (sorted_years (groupByYear (sort_papers earlier))); reflexivity.
    + rewrite Hc. reflexivity.
  - exact Hsort.
  - unfold renderPublications. rewrite Hsort. reflexivity.
Qed.

(** ** The records of any run *)

Lemma request_failed_papers (o : outcome) :
  request_failed o = true -> outcome_papers o = [].
Proof.
  intros H. apply request_failed_page in H. unfold outcome_papers. rewrite H. reflexivity.
Qed.

(** The loop returns what it was given, then the publications of the
    outcomes it used up, in order. *)
Lemma fetchRemainingLoop_extends (net : network) :
  forall (offset : field cursor) (acc r : list paper) (net' : network),
    fetchRemainingLoop net offset acc = Some (r, net') ->
    exists used : list outcome,
      net = (used ++ net')%list /\ r = (acc ++ flat_map outcome_papers used)%list.
Proof.
  induction net as [|o net IH]; intros offset acc r net' H; simpl in H.
  - destruct (negb (truthyC offset)); [|discriminate].
    injection H as <- <-. exists []. simpl. rewrite app_nil_r. auto.
  - destruct (negb (truthyC offset)).
    { injection H as <- <-. exists []. simpl. rewrite app_nil_r. auto. }
    destruct (request_failed o) eqn:Hf.
    + assert (E : r = acc /\ net' = net).
      { destruct o as [|res]; [injection H as <- <-; auto|].
        simpl in Hf. destruct (ok res); simpl in *.
        - destruct (json res); [discriminate|]. injection H as <- <-. auto.
        - injection H as <- <-. auto. }
      destruct E as [-> ->]. exists [o]. simpl.
      rewrite (request_failed_papers o Hf), app_nil_r. auto.
    + destruct o as [|res]; [discriminate|]. simpl in Hf.
      apply orb_false_iff in Hf. destruct Hf as [Hok Hj].
      apply negb_false_iff in Hok. rewrite Hok in H. simpl in H.
      destruct (json res) as [d|] eqn:Hd; [|discriminate].
      destruct (IH _ _ _ _ H) as [used [-> ->]].
      exists (Response res :: used). split; [reflexivity|].
      simpl. unfold outcome_papers at 2. simpl. rewrite Hok, Hd.
      rewrite <- app_assoc. reflexivity.
Qed.

(** ** The further theorems at sample inputs *)

Lemma scroll_shadow_threshold_witness :
  exists cl',
    navbar (handle (initNavigation sample_nav) (Scroll (25 # 2)) sample_nav) = Some cl' /\
    (contains cl' "scrolled" = true <-> (10 # 1 < 25 # 2)%Q) /\
    (forall t, t <> "scrolled" -> contains cl' t = contains ["navbar"] t).
Proof.
  exact (scroll_shadow_threshold sample_nav (25 # 2) ["navbar"] eq_refl).
Defined.

Lemma menu_follows_clicks_witness :
  is_active (navLinks (after_events sample_nav [ToggleClick; Scroll (3 # 1); ToggleClick; ToggleClick]))
  = true.
Proof.
  exact (proj1 (menu_follows_clicks sample_nav ["nav-toggle"] ["nav-links"]
                  [ToggleClick; Scroll (3 # 1); ToggleClick; ToggleClick]
                  eq_refl eq_refl)).
Defined.

Lemma menu_stays_in_step_witness :
  is_active (navLinks (after_events sample_nav ([ToggleClick] ++ [LinkClick]))) = false.
Proof.
  exact (proj1 (proj2 (menu_stays_in_step sample_nav ["nav-toggle"] ["nav-links"]
                         [ToggleClick] eq_refl eq_refl))).
Defined.

Lemma navigation_touches_two_classes_witness :
  option_map (fun cl => contains cl "navbar")
             (navbar (after_events sample_nav [Scroll (700 # 1); ToggleClick]))
  = Some true.
Proof.
  assert (H1 : "navbar" <> "active") by discriminate.
  assert (H2 : "navbar" <> "scrolled") by discriminate.
  exact (proj1 (navigation_touches_two_classes sample_nav
                  [Scroll (700 # 1); ToggleClick] "navbar" H1 H2)).
Defined.

Lemma highlight_current_section_witness :
  List.length (navItems (handle (initNavigation sample_nav) (Scroll (700 # 1)) sample_nav))
  = 3%nat.
Proof.
  assert (H1 : sections sample_nav <> []) by discriminate.
  assert (H2 : navItems sample_nav <> []) by discriminate.
  exact (proj1 (highlight_current_section sample_nav (700 # 1) H1 H2)).
Defined.

Lemma pagination_collects_all_pages_witness :
  fetchScholarData 2024 [first_page; old_page] page_with_list
  = Some (Rendered,
          renderPublications
            (recentPapers 2024 [paper_2021; paper_2023; paper_2020]) page_with_list,
          []).
Proof.
  exact (pagination_collects_all_pages 2024 first_page [] old_page
           {| data := Val [paper_2020]; next := Null |} [] page_with_list
           eq_refl eq_refl eq_refl eq_refl).
Defined.

Lemma single_page_without_cursor_witness :
  fetchScholarData 2024 [old_page; NetworkFailure] page_with_list
  = Some (Rendered,
          renderPublications (recentPapers 2024 [paper_2020]) page_with_list,
          [NetworkFailure]).
Proof.
  exact (proj1 (single_page_without_cursor 2024 old_page
                  {| data := Val [paper_2020]; next := Null |} [NetworkFailure]
                  page_with_list eq_refl (or_intror (or_introl eq_refl)))).
Defined.

Lemma rendered_items_follow_sort_witness :
  items (renderPublications
           (recentPapers 2024 [paper_2021; paper_undated; paper_2023]) page_with_list)
  = map createPaperElement
        (sort_papers (recentPapers 2024 [paper_2021; paper_undated; paper_2023])).
Proof.
  exact (proj2 (rendered_items_follow_sort [paper_2021; paper_undated; paper_2023]
                  page_with_list (Markup "") eq_refl) 2024).
Defined.

Lemma one_heading_per_year_witness :
  NoDup (headings (renderPublications [paper_2021; paper_2021; paper_undated] page_with_list)).
Proof.
  exact (proj1 (one_heading_per_year [paper_2021; paper_2021; paper_undated]
                  page_with_list (Markup "") eq_refl)).
Defined.

Lemma escapeHtml_injective_witness : "a<b" = "a<b".
Proof. exact (escapeHtml_injective "a<b" "a<b" eq_refl). Defined.

Lemma optional_paragraphs_witness :
  venue paper_2021 = Absent \/ venue paper_2021 = Null \/ venue paper_2021 = Val "".
Proof.
  apply (proj2 (optional_paragraphs paper_2021 eq_refl)).
  vm_compute. intros [E|[E|[E|[E|[]]]]]; discriminate E.
Defined.

(** * Bodies of any shape *)

Lemma renderPublications_no_list (papers : list paper) (doc : document) :
  publications_list doc = None -> renderPublications papers doc = doc.
Proof.
  intros H. unfold renderPublications, renderGroupedPapers. rewrite H. reflexivity.
Qed.

Lemma filter_raw_spec (cutoff : Z) (papers : list raw_record) :
  filter_raw cutoff papers
  = if existsb is_null papers then None
    else Some (filter (fun r => is_recent cutoff (fields r)) papers).
Proof.
  induction papers as [|r papers IH]; [reflexivity|].
  destruct r as [|p|p]; simpl; [reflexivity| |];
    rewrite IH; destruct (existsb is_null papers); reflexivity.
Qed.

Lemma fields_recent (currentYear : Z) (papers : list raw_record) :
  map fields (recent_records currentYear papers)
  = recentPapers currentYear (map fields papers).
Proof.
  unfold recent_records, recentPapers.
  induction papers as [|r papers IH]; simpl; [reflexivity|].
  destruct (is_recent (cutoffYear currentYear) (fields r)); simpl; rewrite IH; reflexivity.
Qed.

(** The loop returns what it was given, then the records of the
    outcomes it used up, in order. *)
Lemma fetchRemainingLoop_raw_extends (net : list raw_outcome) :
  forall (offset : field cursor) (acc r : list raw_record) (net' : list raw_outcome),
    fetchRemainingLoop_raw net offset acc = Some (r, net') ->
    exists used : list raw_outcome,
      net = (used ++ net')%list /\ r = (acc ++ flat_map outcome_records used)%list.
Proof.
  induction net as [|o net IH]; intros offset acc r net' H; simpl in H.
  - destruct (negb (truthyC offset)); [|discriminate].
    injection H as <- <-. exists []. simpl. rewrite app_nil_r. auto.
  - destruct (negb (truthyC offset)).
    { injection H as <- <-. exists []. simpl. rewrite app_nil_r. auto. }
    assert (Hstop : r = acc -> net' = net -> outcome_records o = [] ->
                    exists used, o :: net = (used ++ net')%list /\
                                 r = (acc ++ flat_map outcome_records used)%list).
    { intros -> -> Ho. exists [o]. simpl. rewrite Ho, app_nil_r. auto. }
    destruct o as [|code b].
    + injection H as <- <-. apply Hstop; reflexivity.
    + destruct (status_ok code) eqn:Hok; simpl in H.
      * destruct b as [| |d cursor].
        -- injection H as <- <-. apply Hstop; reflexivity.
        -- injection H as <- <-. apply Hstop; reflexivity.
        -- destruct (spread d) as [records|] eqn:Hd.
           ++ destruct (IH _ _ _ _ H) as [used [-> ->]].
              exists (RawResponse code (Body d cursor) :: used).
              split; [reflexivity|]. simpl. rewrite Hok, Hd, <- app_assoc. reflexivity.
           ++ injection H as <- <-. apply Hstop; try reflexivity.
              simpl. rewrite Hok, Hd. reflexivity.
      * injection H as <- <-. apply Hstop; try reflexivity.
        simpl. destruct b as [| |d cursor]; try reflexivity. rewrite Hok. reflexivity.
Qed.

Lemma first_request_fails_run (currentYear : Z) (o : raw_outcome)
    (net : list raw_outcome) (doc : document) :
  first_request_fails o = true ->
  fetchScholarData_raw currentYear (o :: net) doc
  = Some (ErrorRendered, renderError doc, net).
Proof.
  destruct o as [|code b]; simpl; [reflexivity|].
  destruct (status_ok code); simpl; [|reflexivity].
  destruct b; [reflexivity|reflexivity|discriminate].
Qed.

(** Every run that ends: the outcomes it used, whether an exception
    reached the [catch], and what the list holds. *)
Lemma fetchScholarData_raw_spec
    (currentYear : Z) (o : raw_outcome) (net net' : list raw_outcome)
    (doc doc' : document) (st : load_state) :
  fetchScholarData_raw currentYear (o :: net) doc = Some (st, doc', net') ->
  exists used : list raw_outcome,
    net = (used ++ net')%list /\
    (exception_thrown currentYear doc o used = true ->
     st = ErrorRendered /\ doc' = renderError doc) /\
    (exception_thrown currentYear doc o used = false ->
     st = Rendered /\
     doc' = renderPublications
              (recentPapers currentYear (map fields (flat_map outcome_records (o :: used))))
              doc).
Proof.
  intros Hrun.
  destruct (first_request_fails o) eqn:Hf.
  { rewrite (first_request_fails_run _ _ _ _ Hf) in Hrun. injection Hrun as <- <- <-.
    exists []. split; [reflexivity|]. unfold exception_thrown. rewrite Hf. simpl.
    split; [auto|discriminate]. }
  destruct o as [|code b]; [discriminate|].
  simpl in Hf. apply orb_false_iff in Hf. destruct Hf as [Hok Hb].
  apply negb_false_iff in Hok.
  destruct b as [| |d cursor]; try discriminate.
  simpl in Hrun. rewrite Hok in Hrun. simpl in Hrun.
  assert (Hmore : exists more used,
             (if truthyC cursor then fetchRemainingLoop_raw net cursor [] else Some ([], net))
             = Some (more, net') /\ net = (used ++ net')%list /\
             more = flat_map outcome_records used /\
             match first_page_records d with
             | None => (st, doc') = (ErrorRendered, renderError doc)
             | Some papers =>
                 match filter_raw (cutoffYear currentYear) (papers ++ more)%list with
                 | None => (st, doc') = (ErrorRendered, renderError doc)
                 | Some kept =>
                     match renderPublications_raw kept doc with
                     | None => (st, doc') = (ErrorRendered, renderError doc)
                     | Some d' => (st, doc') = (Rendered, d')
                     end
                 end
             end).
  { destruct (truthyC cursor).
    - destruct (fetchRemainingLoop_raw net cursor []) as [[more n]|] eqn:Hloop;
        [|discriminate].
      destruct (fetchRemainingLoop_raw_extends _ _ _ _ _ Hloop) as [used [Hn Hm]].
      simpl in Hm. exists more, used.
      destruct (first_page_records d) as [papers|].
      + destruct (filter_raw (cutoffYear currentYear) (papers ++ more)) as [kept|].
        * destruct (renderPublications_raw kept doc);
            injection Hrun as <- <- <-; auto.
        * injection Hrun as <- <- <-. auto.
      + injection Hrun as <- <- <-. auto.
    - exists [], [].
      destruct (first_page_records d) as [papers|].
      + destruct (filter_raw (cutoffYear currentYear) (papers ++ [])) as [kept|].
        * destruct (renderPublications_raw kept doc);
            injection Hrun as <- <- <-; auto.
        * injection Hrun as <- <- <-. auto.
      + injection Hrun as <- <- <-. auto. }
  destruct Hmore as [more [used [_ [Hn [Hm Hres]]]]].
  exists used. split; [exact Hn|].
  unfold exception_thrown.
  change (first_request_fails (RawResponse code (Body d cursor)))
    with (negb (status_ok code) || false).
  rewrite Hok. simpl negb. simpl orb.
  change (flat_map outcome_records (RawResponse code (Body d cursor) :: used))
    with (outcome_records (RawResponse code (Body d cursor))
          ++ flat_map outcome_records used)%list.
  rewrite <- Hm.
  assert (Hthrown : forall R : Prop, ((st, doc') = (ErrorRendered, renderError doc)) ->
            (true = true -> st = ErrorRendered /\ doc' = renderError doc) /\
            (true = false -> R)).
  { intros R E. injection E as -> ->. split; [auto|discriminate]. }
  destruct d as [|records|s|]; simpl in Hres; simpl data_is_no_array; rewrite ?Hok;
    try (apply Hthrown; exact Hres).
  - (* no data *)
    simpl outcome_records. rewrite Hok. simpl. simpl in Hres.
    rewrite filter_raw_spec in Hres.
    destruct (existsb is_null more); simpl; [apply Hthrown; exact Hres|].
    unfold renderPublications_raw in Hres. fold (recent_records currentYear more) in Hres.
    destruct (publications_list doc) as [c|] eqn:Hc; simpl.
    + destruct (forallb usable (recent_records currentYear more)); simpl.
      * injection Hres as -> ->. rewrite fields_recent. split; [discriminate|auto].
      * apply Hthrown; exact Hres.
    + injection Hres as -> ->. split; [discriminate|].
      intros _. split; [reflexivity|].
      symmetry. apply renderPublications_no_list, Hc.
  - (* an array *)
    simpl outcome_records. rewrite Hok. simpl spread. cbv iota.
    rewrite filter_raw_spec in Hres.
    destruct (existsb is_null (records ++ more)); simpl; [apply Hthrown; exact Hres|].
    unfold renderPublications_raw in Hres.
    fold (recent_records currentYear (records ++ more)) in Hres.
    destruct (publications_list doc) as [c|] eqn:Hc; simpl.
    + destruct (forallb usable (recent_records currentYear (records ++ more))); simpl.
      * injection Hres as -> ->. rewrite fields_recent. split; [discriminate|auto].
      * apply Hthrown; exact Hres.
    + injection Hres as -> ->. split; [discriminate|].
      intros _. split; [reflexivity|].
      symmetry. apply renderPublications_no_list, Hc.
Qed.

(** On responses of the expected structure the code on bodies of any
    shape runs as [fetchRemainingPapers] and [fetchScholarData] do. *)
Lemma fetchRemainingLoop_raw_typed (net : network) :
  forall (offset : field cursor) (acc : list paper),
    fetchRemainingLoop_raw (map raw_of net) offset (map PlainRecord acc)
    = match fetchRemainingLoop net offset acc with
      | None => None
      | Some (r, n) => Some (map PlainRecord r, map raw_of n)
      end.
Proof.
  induction net as [|o net IH]; intros offset acc; simpl.
  - destruct (negb (truthyC offset)); reflexivity.
  - destruct (negb (truthyC offset)); [reflexivity|].
    destruct o as [|res]; [reflexivity|]. simpl.
    change (status_ok (status res)) with (ok res).
    destruct (ok res); simpl; [|reflexivity].
    destruct (json res) as [d|]; [|reflexivity].
    destruct (data d) as [| |records]; simpl.
    + rewrite <- (IH _ (acc ++ [])%list), map_app. reflexivity.
    + rewrite <- (IH _ (acc ++ [])%list), map_app. reflexivity.
    + rewrite <- (IH _ (acc ++ records)%list), map_app. reflexivity.
Qed.

Lemma filter_raw_plain (cutoff : Z) (papers : list paper) :
  filter_raw cutoff (map PlainRecord papers)
  = Some (map PlainRecord (filter (is_recent cutoff) papers)).
Proof.
  induction papers as [|p papers IH]; simpl; [reflexivity|].
  rewrite IH. destruct (is_recent cutoff p); reflexivity.
Qed.

Lemma renderPublications_raw_plain (papers : list paper) (doc : document) :
  renderPublications_raw (map PlainRecord papers) doc
  = Some (renderPublications papers doc).
Proof.
  unfold renderPublications_raw.
  destruct (publications_list doc) as [c|] eqn:Hc.
  - replace (forallb usable (map PlainRecord papers)) with true.
    + rewrite map_map. simpl. rewrite map_id. reflexivity.
    + symmetry. apply forallb_forall. intros r Hr.
      apply in_map_iff in Hr. destruct Hr as [p [<- _]]. reflexivity.
  - rewrite (renderPublications_no_list _ _ Hc). reflexivity.
Qed.

Lemma fetchScholarData_raw_typed (currentYear : Z) (net : network) (doc : document) :
  fetchScholarData_raw currentYear (map raw_of net) doc
  = match fetchScholarData currentYear net doc with
    | None => None
    | Some (st, doc', n) => Some (st, doc', map raw_of n)
    end.
Proof.
  destruct net as [|o net]; [reflexivity|].
  destruct o as [|res]; [reflexivity|]. simpl.
  change (status_ok (status res)) with (ok res).
  destruct (ok res); simpl; [|reflexivity].
  destruct (json res) as [d|]; [|reflexivity].
  unfold collect_papers, fetchRemainingPapers.
  destruct (truthyC (next d)).
  - pose proof (fetchRemainingLoop_raw_typed net (next d) []) as Hloop.
    change (map PlainRecord []) with (@nil raw_record) in Hloop. rewrite Hloop.
    destruct (fetchRemainingLoop net (next d) []) as [[more n]|]; [|reflexivity].
    destruct (data d) as [| |records]; simpl;
      rewrite <- ?map_app, filter_raw_plain, renderPublications_raw_plain; reflexivity.
  - pose proof (renderPublications_raw_plain [] doc) as Hnil.
    change (map PlainRecord []) with (@nil raw_record) in Hnil.
    destruct (data d) as [| |records]; simpl.
    + rewrite Hnil. reflexivity.
    + rewrite Hnil. reflexivity.
    + rewrite app_nil_r, filter_raw_plain, renderPublications_raw_plain. reflexivity.
Qed.


Lemma is_null_in (papers : list raw_record) :
  existsb is_null papers = true <-> In NullRecord papers.
Proof.
  rewrite existsb_exists. split.
  - intros [r [Hr Hn]]. destruct r; try discriminate. exact Hr.
  - intros H. exists NullRecord. auto.
Qed.

Lemma unusable_recent (currentYear : Z) (papers : list raw_record) :
  forallb usable (recent_records currentYear papers) = false <->
  exists p, In (UnusableAuthors p) papers /\ is_recent (cutoffYear currentYear) p = true.
Proof.
  unfold recent_records. split.
  - intros H.
    destruct (forallb usable _) eqn:E in H; [discriminate|]. clear H.
    induction papers as [|r papers IH]; simpl in E; [discriminate|].
    destruct (is_recent (cutoffYear currentYear) (fields r)) eqn:Hr.
    + simpl in E. apply andb_false_iff in E. destruct E as [E|E].
      * destruct r as [|p|p]; try discriminate. exists p. simpl in Hr. simpl. auto.
      * destruct (IH E) as [p [Hp Hy]]. exists p. simpl. auto.
    + destruct (IH E) as [p [Hp Hy]]. exists p. simpl. auto.
  - intros [p [Hp Hy]].
    destruct (forallb usable _) eqn:E; [|reflexivity].
    rewrite forallb_forall in E.
    specialize (E (UnusableAuthors p)). simpl in E. symmetry. apply E.
    apply filter_In. auto.
Qed.

Lemma exception_thrown_spec (currentYear : Z) (doc : document) (o : raw_outcome)
    (used : list raw_outcome) :
  exception_thrown currentYear doc o used = true <->
  first_request_fails o = true \/ data_is_no_array o = true \/
  In NullRecord (flat_map outcome_records (o :: used)) \/
  (publications_list doc <> None /\
   exists p, In (UnusableAuthors p) (flat_map outcome_records (o :: used)) /\
             is_recent (cutoffYear currentYear) p = true).
Proof.
  unfold exception_thrown.
  rewrite !orb_true_iff, andb_true_iff, negb_true_iff, is_null_in, unusable_recent.
  assert (Hs : is_some (publications_list doc) = true <-> publications_list doc <> None).
  { destruct (publications_list doc); simpl; split; congruence. }
  rewrite Hs. tauto.
Qed.



(** X19. When a run ends in the rendered state, what it renders are the
    records of the responses it used up, page after page in the order of
    arrival, filtered by year: none of them is null, no record received is
    left out before the filter and none is made up.  The outcomes it did
    not use are left as they were. *)
Theorem rendered_records_are_pages_received
    (currentYear : Z) (o : raw_outcome) (net net' : list raw_outcome)
    (doc doc' : document) :
  fetchScholarData_raw currentYear (o :: net) doc = Some (Rendered, doc', net') ->
  exists used : list raw_outcome,
    net = (used ++ net')%list /\
    ~ In NullRecord (flat_map outcome_records (o :: used)) /\
    doc' = renderPublications
             (recentPapers currentYear
                (map fields (flat_map outcome_records (o :: used)))) doc.
Proof.
  intros Hrun.
  destruct (fetchScholarData_raw_spec _ _ _ _ _ _ _ Hrun) as [used [Hn [Ht Hf]]].
  exists used. split; [exact Hn|].
  destruct (exception_thrown currentYear doc o used) eqn:E.
  - destruct (Ht eq_refl) as [H _]. discriminate H.
  - split; [|apply Hf; reflexivity].
    intros Hnull.
    assert (exception_thrown currentYear doc o used = true).
    { apply exception_thrown_spec. auto. }
    congruence.
Qed.

(** ** The tags of a publication, read as the browser reads them *)

Lemma token_shape_names (ts : list token) (names : list string) :
  Forall (fun t => In (token_name t) names) ts ->
  Forall (fun t => In (token_name t) names) (map token_shape ts).
Proof.
  intros H. rewrite Forall_forall in *. intros t Ht.
  apply in_map_iff in Ht. destruct Ht as [t0 [<- Ht0]].
  specialize (H t0 Ht0). destruct t0; exact H.
Qed.

(** X15. When the link target of a publication holds no double quote,
    the markup of its element has the elements of the template, in the
    order of the template and with its attribute names, whatever the
    title, the venue, the author names and the link target contain:
    elements [div], [a], [p] and [strong] only.  The tokenizer here leaves
    character references as they are written; for a link target that in
    addition holds no [&], no carriage return and no NUL the value of
    [href] is the link target itself. *)
Theorem markup_has_template_tags (p : paper) :
  lacks "034" (paper_href p) = true ->
  map token_shape (tags (markup_of (createPaperElement p)))
  = map token_shape (template_tags p) /\
  Forall (fun t => In (token_name t) ["div"; "a"; "p"; "strong"])
         (map token_shape (tags (markup_of (createPaperElement p)))) /\
  (lacks "&" (paper_href p) = true ->
   lacks "013" (paper_href p) = true ->
   lacks "000" (paper_href p) = true ->
   In (anchor_tag (paper_href p)) (tags (markup_of (createPaperElement p)))).
Proof.
  intros H. rewrite (createPaperElement_tags p H).
  split; [reflexivity|]. split.
  - apply token_shape_names, template_tag_names.
  - intros _ _ _. unfold template_tags. apply in_or_app. left. simpl. tauto.
Qed.

(** ** The amended theorems at sample inputs *)


Lemma rendered_records_are_pages_received_witness :
  exists used : list raw_outcome,
    [RawNetworkFailure; RawResponse 200 NullBody]
    = (used ++ [RawResponse 200 NullBody])%list /\
    ~ In NullRecord
        (flat_map outcome_records
           (RawResponse 200 (Body (DataArray [PlainRecord paper_2021; PlainRecord paper_2023])
                                  (Val (CStr "X"))) :: used)) /\
    renderPublications (recentPapers 2024 [paper_2021; paper_2023]) page_with_list
    = renderPublications
        (recentPapers 2024
           (map fields
              (flat_map outcome_records
                 (RawResponse 200 (Body (DataArray [PlainRecord paper_2021;
                                                    PlainRecord paper_2023])
                                        (Val (CStr "X"))) :: used))))
        page_with_list.
Proof.
  exact (rendered_records_are_pages_received 2024
           (RawResponse 200 (Body (DataArray [PlainRecord paper_2021; PlainRecord paper_2023])
                                  (Val (CStr "X"))))
           [RawNetworkFailure; RawResponse 200 NullBody] [RawResponse 200 NullBody]
           page_with_list
           (renderPublications (recentPapers 2024 [paper_2021; paper_2023]) page_with_list)
           eq_refl).
Defined.

Lemma markup_has_template_tags_witness :
  map token_shape (tags (markup_of (createPaperElement linked_paper)))
  = map token_shape (template_tags linked_paper).
Proof.
  exact (proj1 (markup_has_template_tags linked_paper eq_refl)).
Defined.
